(** * polarphp request core: SimpleRequest and the C++ TypeId zone

    A shallow embedding of
      - include/polarphp/ast/SimpleRequest.h   (the CRTP request base class)
      - include/polarphp/basic/CTypeIdZoneDefs.h (the "C++" TypeId zone list)
    together with the properties the specification states about them. *)

From Stdlib Require Import List String ZArith Lia Bool Arith Permutation FinFun.
Import ListNotations.

Local Open Scope string_scope.

(** ** Input types and std::tuple<Inputs...> *)

(** One element type of the parameter pack [Inputs...].  A type can be used
    as a request input when it has [operator==] and [hash_value]; both are
    supplied by the type itself, not by SimpleRequest. *)
Record InputType : Type := {
  carrier : Type;
  elem_eqb : carrier -> carrier -> bool;   (* operator== of the element type *)
  elem_hash : carrier -> Z                 (* hash_value of the element type *)
}.

(** [std::tuple<Inputs...>]: one value per input type, in declaration order. *)
Fixpoint tuple (ts : list InputType) : Type :=
  match ts with
  | [] => unit
  | t :: ts' => (carrier t * tuple ts')%type
  end.

(** A function taking the pack [Inputs...] as successive arguments. *)
Fixpoint arrow (ts : list InputType) (R : Type) : Type :=
  match ts with
  | [] => R
  | t :: ts' => carrier t -> arrow ts' R
  end.

(** Calling such a function on the elements of a tuple, first to last. *)
Fixpoint apply_tuple (ts : list InputType) (R : Type)
  : arrow ts R -> tuple ts -> R :=
  match ts return arrow ts R -> tuple ts -> R with
  | [] => fun f _ => f
  | t :: ts' => fun f s => apply_tuple ts' R (f (fst s)) (snd s)
  end.
Arguments apply_tuple {ts R} f s.

(** The function that collects its arguments [inputs...] into a tuple:
    the member initialiser [m_storage(inputs...)]. *)
Fixpoint make_tuple (ts : list InputType)
  : forall R : Type, (tuple ts -> R) -> arrow ts R :=
  match ts return forall R : Type, (tuple ts -> R) -> arrow ts R with
  | [] => fun _ k => k tt
  | t :: ts' => fun R k x => make_tuple ts' R (fun s => k (x, s))
  end.
Arguments make_tuple {ts R} k.

(** [operator==] of std::tuple: the conjunction of the element comparisons. *)
Fixpoint tuple_eqb (ts : list InputType) : tuple ts -> tuple ts -> bool :=
  match ts return tuple ts -> tuple ts -> bool with
  | [] => fun _ _ => true
  | t :: ts' => fun a b =>
      elem_eqb t (fst a) (fst b) && tuple_eqb ts' (snd a) (snd b)
  end.
Arguments tuple_eqb {ts} a b.

(** The hash of every element, first to last. *)
Fixpoint tuple_hashes (ts : list InputType) : tuple ts -> list Z :=
  match ts return tuple ts -> list Z with
  | [] => fun _ => []
  | t :: ts' => fun s => elem_hash t (fst s) :: tuple_hashes ts' (snd s)
  end.
Arguments tuple_hashes {ts} s.

(** An element type whose hash agrees with its operator==. *)
Definition hash_respects_eqb (t : InputType) : Prop :=
  forall x y : carrier t, elem_eqb t x y = true -> elem_hash t x = elem_hash t y.

(** A compile-time index [I] into [Inputs...] together with the type found
    there: the template argument of [std::get<I>]. *)
Inductive index : list InputType -> InputType -> Type :=
| IZ : forall t ts, index (t :: ts) t
| IS : forall t u ts, index ts t -> index (u :: ts) t.
Arguments IS {t} u {ts} i.

(** The number an index stands for. *)
Fixpoint index_pos (ts : list InputType) (t : InputType) (i : index ts t) : nat :=
  match i with
  | IZ _ _ => 0
  | IS u j => S (index_pos _ _ j)
  end.
Arguments index_pos {ts t} i.

(** [std::get<I>(tuple)]. *)
Fixpoint get (ts : list InputType) (t : InputType) (i : index ts t)
  : tuple ts -> carrier t :=
  match i in index ts0 t0 return tuple ts0 -> carrier t0 with
  | IZ _ _ => fun s => fst s
  | IS u j => fun s => get _ _ j (snd s)
  end.
Arguments get {ts t} i s.

(** [index_sequence<Indices...>]: a pack of indices into [all], whose
    elements have the types [ts]. *)
Inductive index_sequence (all : list InputType) : list InputType -> Type :=
| ISnil : index_sequence all []
| IScons : forall t ts, index all t -> index_sequence all ts ->
                        index_sequence all (t :: ts).
Arguments IScons {all t ts} i rest.

(** [sizeof...(Indices)]. *)
Fixpoint sizeof_pack (all ts : list InputType) (idxs : index_sequence all ts) : nat :=
  match idxs with
  | ISnil _ => 0
  | IScons _ rest => S (sizeof_pack all _ rest)
  end.
Arguments sizeof_pack {all ts} idxs.

(** The numbers in an index pack, in order. *)
Fixpoint pack_positions (all ts : list InputType) (idxs : index_sequence all ts)
  : list nat :=
  match idxs with
  | ISnil _ => []
  | IScons i rest => index_pos i :: pack_positions all _ rest
  end.
Arguments pack_positions {all ts} idxs.

(** Every index of a pack moved one place to the right. *)
Fixpoint shift_pack (u : InputType) (all ts : list InputType)
  (idxs : index_sequence all ts) : index_sequence (u :: all) ts :=
  match idxs in index_sequence _ ts0 return index_sequence (u :: all) ts0 with
  | ISnil _ => ISnil (u :: all)
  | IScons i rest => IScons (IS u i) (shift_pack u all _ rest)
  end.
Arguments shift_pack u {all ts} idxs.

(** [index_sequence_for<Inputs...>]: the pack 0, 1, ..., N-1. *)
Fixpoint index_sequence_for (ts : list InputType) : index_sequence ts ts :=
  match ts return index_sequence ts ts with
  | [] => ISnil []
  | t :: ts' => IScons (IZ t ts') (shift_pack t (index_sequence_for ts'))
  end.

(** The pack expansion [f(std::get<Indices>(s)...)]. *)
Fixpoint expand_call (all ts : list InputType) (R : Type)
  (idxs : index_sequence all ts) (s : tuple all) : arrow ts R -> R :=
  match idxs in index_sequence _ ts0 return arrow ts0 R -> R with
  | ISnil _ => fun f => f
  | IScons i rest => fun f => expand_call all _ R rest s (f (get i s))
  end.
Arguments expand_call {all ts R} idxs s f.

(** The values [std::get<Indices>(s)...] themselves, as an argument pack. *)
Fixpoint expand_pack (all ts : list InputType)
  (idxs : index_sequence all ts) (s : tuple all) : tuple ts :=
  match idxs in index_sequence _ ts0 return tuple ts0 with
  | ISnil _ => tt
  | IScons i rest => (get i s, expand_pack all _ rest s)
  end.
Arguments expand_pack {all ts} idxs s.

(** ** What SimpleRequest.h takes from other headers *)

(** [enum class CacheKind]: how the result of a request is cached. *)
Inductive CacheKind : Type :=
| Uncached           (* never cached *)
| Cached             (* cached within the evaluator itself *)
| SeparatelyCached.  (* cached by some separate mechanism *)

Definition CacheKind_eqb (a b : CacheKind) : bool :=
  match a, b with
  | Uncached, Uncached | Cached, Cached
  | SeparatelyCached, SeparatelyCached => true
  | _, _ => false
  end.

(** [polar::utils::Expected<T>]: a value, or the error that replaces it. *)
Inductive Expected (E A : Type) : Type :=
| Success (a : A)
| Failure (e : E).
Arguments Success {E A} a.
Arguments Failure {E A} e.

(** The outcome of instantiating a member of a class template: either the
    member exists, or the program is ill-formed and the build stops with a
    message.  Members of a class template are instantiated only when used. *)
Inductive Instantiated (A : Type) : Type :=
| WellFormed (a : A)
| IllFormed (why : string).
Arguments WellFormed {A} a.
Arguments IllFormed {A} why.

Definition is_well_formed {A : Type} (i : Instantiated A) : bool :=
  match i with
  | WellFormed _ => true
  | IllFormed _ => false
  end.

(** The headers SimpleRequest.h includes but that are not part of the
    sources at hand.  The request base class is generic in all of them. *)
Class Collaborators : Type := {
  (** [class Evaluator;] only forward-declared; requests receive it by
      reference and may change it. *)
  Evaluator : Type;
  (** the error carried by a failed [Expected]. *)
  Error : Type;
  (** what [getCycleDiagnosticLoc] returns and [diagnose] is located at. *)
  SourceLoc : Type;
  (** [polar::basic::hash_combine] at the two arguments hash_value passes:
      the TypeId value and the hash of the stored tuple. *)
  hash_combine : Z * Z -> Z -> Z;
  (** the combination of a sequence of element hashes. *)
  hash_combine_range : list Z -> Z;
  (** the text [simple_display(out, std::tuple)] of SimpleDisplay.h writes. *)
  simple_display_tuple : forall ts : list InputType, tuple ts -> string;
  (** [UnifiedStatsReporter], [FrontendStatsTracer] and the tracer that
      LangStatistic.h makes from a reporter, a name and a tuple. *)
  UnifiedStatsReporter : Type;
  FrontendStatsTracer : Type;
  make_tracer_named :
    UnifiedStatsReporter -> string ->
    forall ts : list InputType, tuple ts -> FrontendStatsTracer
}.

(** Modelled from the spec: TypeId.h is not among the sources.  According to
    the specification the registry gives a type a (zone, local-id) identity
    and a display name; [TypeId<T>::value] is that identity and
    [TypeId<T>::getName()] that name. *)
Record TypeId : Type := {
  zoneID : Z;
  localID : Z;
  getName : string
}.

Definition TypeId_value (t : TypeId) : Z * Z := (zoneID t, localID t).

(** [polar::ast::RawOutStream]: the text written so far; [out << s] appends. *)
Definition RawOutStream : Type := string.

Definition stream_write (out : RawOutStream) (s : string) : RawOutStream :=
  out ++ s.

(** [Diag<Inputs...>]: a diagnostic message template taking [Inputs...]. *)
Record Diag (ts : list InputType) : Type := { diagID : nat }.
Arguments diagID {ts} d.

Section Request.

Context `{Collaborators}.

(** One call [diags.diagnose(loc, diag, args...)]. *)
Inductive Diagnostic : Type :=
| Emitted : forall ts : list InputType,
    SourceLoc -> Diag ts -> tuple ts -> Diagnostic.

(** Modelled from the spec: DiagnosticEngine.h is not among the sources; the
    core "only supplies arguments" to the diagnostic engine, so the engine is
    represented by the diagnose calls it has received, oldest first. *)
Definition DiagnosticEngine : Type := list Diagnostic.

Definition diagnose (diags : DiagnosticEngine) (ts : list InputType)
  (loc : SourceLoc) (diag : Diag ts) (args : tuple ts) : DiagnosticEngine :=
  (diags ++ [Emitted ts loc diag args])%list.
Arguments diagnose diags {ts} loc diag args.

(** Modelled from the spec: Hashing.h is not among the sources; the input
    tuple has a "structural hash ... derived automatically from its element
    types", i.e. the combination of the element hashes in order. *)
Definition hash_value_tuple (ts : list InputType) (s : tuple ts) : Z :=
  hash_combine_range (tuple_hashes s).

(** A request kind: the class [Derived] together with the template arguments
    it passes to [SimpleRequest<Derived, Caching, Output, Inputs...>].  The
    members a kind may or may not declare are optional. *)
Record Kind : Type := {
  typeId : TypeId;                         (* TypeId<Derived> *)
  Caching : CacheKind;
  Output : Type;
  Inputs : list InputType;
  (** [Expected<Output> evaluate(Evaluator &evaluator, Inputs...) const] *)
  evaluate : Evaluator -> arrow Inputs (Expected Error Output * Evaluator);
  (** [void diagnoseCycle(DiagnosticEngine &diags) const], declared by
      Derived itself; it reads the inputs through [getStorage()]. *)
  own_diagnoseCycle :
    option (tuple Inputs -> DiagnosticEngine -> DiagnosticEngine);
  (** [void noteCycleStep(DiagnosticEngine &diags) const] of Derived. *)
  own_noteCycleStep :
    option (tuple Inputs -> DiagnosticEngine -> DiagnosticEngine);
  (** [T getCycleDiagnosticLoc(Inputs...) const] *)
  getCycleDiagnosticLoc : option (arrow Inputs SourceLoc);
  (** [static constexpr Diag<Inputs...> cycleDiagnostic] *)
  cycleDiagnostic : option (Diag Inputs);
  (** [static constexpr Diag<Inputs...> cycleStepDiagnostic] *)
  cycleStepDiagnostic : option (Diag Inputs)
}.

(** [class SimpleRequest]: its only data member is [m_storage]. *)
Record SimpleRequest (K : Kind) : Type := {
  m_storage : tuple (Inputs K)
}.
Arguments m_storage {K} s.

(** [const std::tuple<Inputs...> &getStorage() const] *)
Definition getStorage (K : Kind) (this : SimpleRequest K) : tuple (Inputs K) :=
  m_storage this.
Arguments getStorage {K} this.

Definition isEverCached (K : Kind) : bool :=
  negb (CacheKind_eqb (Caching K) Uncached).

Definition hasExternalCache (K : Kind) : bool :=
  CacheKind_eqb (Caching K) SeparatelyCached.

(** [explicit SimpleRequest(const Inputs& ...inputs) : m_storage(inputs...)] *)
Definition SimpleRequest_new (K : Kind) : arrow (Inputs K) (SimpleRequest K) :=
  make_tuple (fun s => {| m_storage := s |}).

(** [callDerived]: the static_assert on the pack size, then the call of
    Derived's evaluate on [std::get<Indices>(m_storage)...]. *)
Definition callDerived (K : Kind)
  (idxs : index_sequence (Inputs K) (Inputs K))
  : Instantiated (SimpleRequest K -> Evaluator ->
                  Expected Error (Output K) * Evaluator) :=
  if Nat.ltb 0 (sizeof_pack idxs)
  then WellFormed (fun this evaluator =>
         expand_call idxs (m_storage this) (evaluate K evaluator))
  else IllFormed "Subclass must define evaluate()".

(** [static evaluateRequest(const Derived &request, Evaluator &evaluator)] *)
Definition evaluateRequest (K : Kind)
  : Instantiated (SimpleRequest K -> Evaluator ->
                  Expected Error (Output K) * Evaluator) :=
  callDerived K (index_sequence_for (Inputs K)).

(** [diagnoseImpl]: one diagnose call, located by getCycleDiagnosticLoc on
    the stored inputs and given the stored inputs as arguments.  It names
    [getCycleDiagnosticLoc], so it exists only for a kind that has one. *)
Definition diagnoseImpl (K : Kind) (diag : Diag (Inputs K))
  (idxs : index_sequence (Inputs K) (Inputs K))
  : Instantiated (SimpleRequest K -> DiagnosticEngine -> DiagnosticEngine) :=
  match getCycleDiagnosticLoc K with
  | Some loc =>
      WellFormed (fun this diags =>
        diagnose diags (expand_call idxs (m_storage this) loc) diag
                 (expand_pack idxs (m_storage this)))
  | None => IllFormed "no member named getCycleDiagnosticLoc in Derived"
  end.

(** [SimpleRequest::diagnoseCycle]; it names [Derived::cycleDiagnostic]. *)
Definition diagnoseCycle (K : Kind)
  : Instantiated (SimpleRequest K -> DiagnosticEngine -> DiagnosticEngine) :=
  match cycleDiagnostic K with
  | Some diag => diagnoseImpl K diag (index_sequence_for (Inputs K))
  | None => IllFormed "no member named cycleDiagnostic in Derived"
  end.

(** [SimpleRequest::noteCycleStep]; it names [Derived::cycleStepDiagnostic]. *)
Definition noteCycleStep (K : Kind)
  : Instantiated (SimpleRequest K -> DiagnosticEngine -> DiagnosticEngine) :=
  match cycleStepDiagnostic K with
  | Some diag => diagnoseImpl K diag (index_sequence_for (Inputs K))
  | None => IllFormed "no member named cycleStepDiagnostic in Derived"
  end.

(** What [request.diagnoseCycle(diags)] means for a [Derived] request: a
    member declared by Derived hides the one inherited from SimpleRequest,
    which is then never instantiated. *)
Definition Derived_diagnoseCycle (K : Kind)
  : Instantiated (SimpleRequest K -> DiagnosticEngine -> DiagnosticEngine) :=
  match own_diagnoseCycle K with
  | Some f => WellFormed (fun this diags => f (getStorage this) diags)
  | None => diagnoseCycle K
  end.

Definition Derived_noteCycleStep (K : Kind)
  : Instantiated (SimpleRequest K -> DiagnosticEngine -> DiagnosticEngine) :=
  match own_noteCycleStep K with
  | Some f => WellFormed (fun this diags => f (getStorage this) diags)
  | None => noteCycleStep K
  end.

(** [friend bool operator==(const SimpleRequest &, const SimpleRequest &)] *)
Definition operator_eq (K : Kind) (lhs rhs : SimpleRequest K) : bool :=
  tuple_eqb (m_storage lhs) (m_storage rhs).

(** [friend bool operator!=(const SimpleRequest &, const SimpleRequest &)] *)
Definition operator_ne (K : Kind) (lhs rhs : SimpleRequest K) : bool :=
  negb (operator_eq K lhs rhs).

(** [friend HashCode hash_value(const SimpleRequest &request)] *)
Definition hash_value (K : Kind) (request : SimpleRequest K) : Z :=
  hash_combine (TypeId_value (typeId K))
               (hash_value_tuple (Inputs K) (m_storage request)).

(** [friend void simple_display(RawOutStream &out, const Derived &request)] *)
Definition simple_display (K : Kind) (out : RawOutStream)
  (request : SimpleRequest K) : RawOutStream :=
  let out1 := stream_write out (getName (typeId K)) in
  stream_write out1 (simple_display_tuple (Inputs K) (m_storage request)).

(** [friend FrontendStatsTracer make_tracer(UnifiedStatsReporter *reporter,
    const Derived &request)] *)
Definition make_tracer (K : Kind) (reporter : UnifiedStatsReporter)
  (request : SimpleRequest K) : FrontendStatsTracer :=
  make_tracer_named reporter (getName (typeId K)) (Inputs K)
                    (m_storage request).

(** *** Which cycle-diagnostic members a kind declares *)

Definition provided {A : Type} (o : option A) : bool :=
  match o with
  | Some _ => true
  | None => false
  end.

(** Variant (a): Derived declares diagnoseCycle and noteCycleStep itself. *)
Definition has_direct_variant (K : Kind) : bool :=
  provided (own_diagnoseCycle K) && provided (own_noteCycleStep K).

(** Variant (b): Derived declares getCycleDiagnosticLoc and the two
    diagnostic templates. *)
Definition has_templated_variant (K : Kind) : bool :=
  provided (getCycleDiagnosticLoc K) && provided (cycleDiagnostic K)
  && provided (cycleStepDiagnostic K).

(** The rule as the specification words it: exactly one of the two variants
    is present. *)
Definition exactly_one_variant (K : Kind) : bool :=
  xorb (has_direct_variant K) (has_templated_variant K).

(** The build accepts the cycle hooks of a kind when both calls the
    evaluator makes, diagnoseCycle and noteCycleStep, can be instantiated. *)
Definition cycle_hooks_build (K : Kind) : bool :=
  is_well_formed (Derived_diagnoseCycle K)
  && is_well_formed (Derived_noteCycleStep K).

(** The kind [K] registered under another display name: everything else,
    the (zone, local-id) identity included, is that of [K]. *)
Definition with_name (K : Kind) (name : string) : Kind :=
  {| typeId := {| zoneID := zoneID (typeId K);
                  localID := localID (typeId K);
                  getName := name |};
     Caching := Caching K;
     Output := Output K;
     Inputs := Inputs K;
     evaluate := evaluate K;
     own_diagnoseCycle := own_diagnoseCycle K;
     own_noteCycleStep := own_noteCycleStep K;
     getCycleDiagnosticLoc := getCycleDiagnosticLoc K;
     cycleDiagnostic := cycleDiagnostic K;
     cycleStepDiagnostic := cycleStepDiagnostic K |}.

(** *** The public operations, as calls on a request object *)

(** Everything a public operation can reach: the request it is called on
    and the three objects passed by reference. *)
Record Env (K : Kind) : Type := {
  env_this : SimpleRequest K;
  env_evaluator : Evaluator;
  env_diags : DiagnosticEngine;
  env_out : RawOutStream
}.
Arguments env_this {K} e.
Arguments env_evaluator {K} e.
Arguments env_diags {K} e.
Arguments env_out {K} e.

Inductive Operation (K : Kind) : Type :=
| OpEq (rhs : SimpleRequest K)      (* this == rhs *)
| OpNe (rhs : SimpleRequest K)      (* this != rhs *)
| OpHashValue                       (* hash_value(this) *)
| OpSimpleDisplay                   (* simple_display(out, this) *)
| OpEvaluateRequest                 (* evaluateRequest(this, evaluator) *)
| OpDiagnoseCycle                   (* this.diagnoseCycle(diags) *)
| OpNoteCycleStep                   (* this.noteCycleStep(diags) *)
| OpMakeTracer (reporter : UnifiedStatsReporter).
                                    (* make_tracer(reporter, this) *)
Arguments OpEq {K} rhs.
Arguments OpNe {K} rhs.
Arguments OpHashValue {K}.
Arguments OpSimpleDisplay {K}.
Arguments OpEvaluateRequest {K}.
Arguments OpDiagnoseCycle {K}.
Arguments OpNoteCycleStep {K}.
Arguments OpMakeTracer {K} reporter.

Inductive Returned (K : Kind) : Type :=
| RetBool (b : bool)
| RetHash (h : Z)
| RetVoid
| RetExpected (r : Expected Error (Output K))
| RetTracer (t : FrontendStatsTracer).
Arguments RetBool {K} b.
Arguments RetHash {K} h.
Arguments RetVoid {K}.
Arguments RetExpected {K} r.
Arguments RetTracer {K} t.

(** One call: the value returned and the objects as the call leaves them. *)
Definition perform (K : Kind) (op : Operation K) (e : Env K)
  : Instantiated (Returned K * Env K) :=
  match op with
  | OpEq rhs => WellFormed (RetBool (operator_eq K (env_this e) rhs), e)
  | OpNe rhs => WellFormed (RetBool (operator_ne K (env_this e) rhs), e)
  | OpHashValue => WellFormed (RetHash (hash_value K (env_this e)), e)
  | OpSimpleDisplay =>
      WellFormed (RetVoid,
        {| env_this := env_this e;
           env_evaluator := env_evaluator e;
           env_diags := env_diags e;
           env_out := simple_display K (env_out e) (env_this e) |})
  | OpEvaluateRequest =>
      match evaluateRequest K with
      | WellFormed f =>
          let res := f (env_this e) (env_evaluator e) in
          WellFormed (RetExpected (fst res),
            {| env_this := env_this e;
               env_evaluator := snd res;
               env_diags := env_diags e;
               env_out := env_out e |})
      | IllFormed why => IllFormed why
      end
  | OpDiagnoseCycle =>
      match Derived_diagnoseCycle K with
      | WellFormed f =>
          WellFormed (RetVoid,
            {| env_this := env_this e;
               env_evaluator := env_evaluator e;
               env_diags := f (env_this e) (env_diags e);
               env_out := env_out e |})
      | IllFormed why => IllFormed why
      end
  | OpNoteCycleStep =>
      match Derived_noteCycleStep K with
      | WellFormed f =>
          WellFormed (RetVoid,
            {| env_this := env_this e;
               env_evaluator := env_evaluator e;
               env_diags := f (env_this e) (env_diags e);
               env_out := env_out e |})
      | IllFormed why => IllFormed why
      end
  | OpMakeTracer reporter =>
      WellFormed (RetTracer (make_tracer K reporter (env_this e)), e)
  end.

(** A sequence of calls on the same request, first to last. *)
Fixpoint perform_all (K : Kind) (ops : list (Operation K)) (e : Env K)
  : Instantiated (list (Returned K) * Env K) :=
  match ops with
  | [] => WellFormed ([], e)
  | op :: rest =>
      match perform K op e with
      | WellFormed (r, e1) =>
          match perform_all K rest e1 with
          | WellFormed (rs, e2) => WellFormed (r :: rs, e2)
          | IllFormed why => IllFormed why
          end
      | IllFormed why => IllFormed why
      end
  end.

End Request.

Arguments diagnose {_} diags {ts} loc diag args.
Arguments m_storage {_ K} s.
Arguments getStorage {_ K} this.
Arguments env_this {_ K} e.
Arguments env_evaluator {_ K} e.
Arguments env_diags {_ K} e.
Arguments env_out {_ K} e.
Arguments OpEq {_ K} rhs.
Arguments OpNe {_ K} rhs.
Arguments OpHashValue {_ K}.
Arguments OpSimpleDisplay {_ K}.
Arguments OpEvaluateRequest {_ K}.
Arguments OpDiagnoseCycle {_ K}.
Arguments OpNoteCycleStep {_ K}.
Arguments OpMakeTracer {_ K} reporter.
Arguments RetBool {_ K} b.
Arguments RetHash {_ K} h.
Arguments RetVoid {_ K}.
Arguments RetExpected {_ K} r.
Arguments RetTracer {_ K} t.
Arguments perform {_ K} op e.
Arguments perform_all {_ K} ops e.
Arguments operator_eq {_ K} lhs rhs.
Arguments operator_ne {_ K} lhs rhs.
Arguments hash_value {_ K} request.
Arguments simple_display {_ K} out request.
Arguments make_tracer {_ K} reporter request.

(** ** The "C++" TypeId zone: CTypeIdZoneDefs.h *)

(** One line of a zone definition file. *)
Inductive ZoneEntry : Type :=
| POLAR_TYPEID_NAMED (ctype polarType : string)
| POLAR_TYPEID_TEMPLATE1_NAMED (T1 T2 T3 T4 : string).

(** The list itself, in the order of the file. *)
Definition CTypeIdZoneDefs : list ZoneEntry := [
  (* C types. *)
  POLAR_TYPEID_NAMED "unsigned char" "UnsignedChar";
  POLAR_TYPEID_NAMED "signed char" "SignedChar";
  POLAR_TYPEID_NAMED "char" "Char";
  POLAR_TYPEID_NAMED "short" "Short";
  POLAR_TYPEID_NAMED "unsigned short" "UnsignedShort";
  POLAR_TYPEID_NAMED "int" "Int";
  POLAR_TYPEID_NAMED "unsigned int" "UnsignedInt";
  POLAR_TYPEID_NAMED "long" "Long";
  POLAR_TYPEID_NAMED "unsigned long" "UnsignedLong";
  POLAR_TYPEID_NAMED "long long" "LongLong";
  POLAR_TYPEID_NAMED "unsigned long long" "UnsignedLongLong";
  POLAR_TYPEID_NAMED "float" "Float";
  POLAR_TYPEID_NAMED "double" "Double";
  POLAR_TYPEID_NAMED "bool" "Bool";
  POLAR_TYPEID_NAMED "decltype(nullptr)" "NullPtr";
  POLAR_TYPEID_NAMED "void" "Void";
  POLAR_TYPEID_NAMED "std::string" "String";
  (* C++ standard library types. *)
  POLAR_TYPEID_TEMPLATE1_NAMED "std::vector" "Vector" "typename T" "T";
  (* polar ADT types. *)
  POLAR_TYPEID_TEMPLATE1_NAMED "polar::basic::TinyPtrVector" "TinyPtrVector"
                               "typename T" "T"
]%list.

(** The type (or template) an entry declares. *)
Definition entry_type (e : ZoneEntry) : string :=
  match e with
  | POLAR_TYPEID_NAMED ctype _ => ctype
  | POLAR_TYPEID_TEMPLATE1_NAMED T1 _ _ _ => T1
  end.

(** The display name paired with it. *)
Definition entry_name (e : ZoneEntry) : string :=
  match e with
  | POLAR_TYPEID_NAMED _ polarType => polarType
  | POLAR_TYPEID_TEMPLATE1_NAMED _ T2 _ _ => T2
  end.

(** Modelled from the spec: the header that expands a zone list into TypeId
    specialisations is not among the sources.  "Local ids are assigned by
    list position, starting at a zone-specific base offset": the table of a
    zone pairs each entry with its local id. *)
Fixpoint assign_local_ids (base : Z) (entries : list ZoneEntry)
  : list (ZoneEntry * Z) :=
  match entries with
  | [] => []
  | e :: rest => (e, base) :: assign_local_ids (base + 1) rest
  end%list.

(** The row of a table that declares type [ty]. *)
Definition lookup_type (table : list (ZoneEntry * Z)) (ty : string)
  : option (ZoneEntry * Z) :=
  find (fun row => String.eqb (entry_type (fst row)) ty) table.

(** The local id of [ty] in a zone with the given base and entries. *)
Definition local_id_of (base : Z) (entries : list ZoneEntry) (ty : string)
  : option Z :=
  option_map snd (lookup_type (assign_local_ids base entries) ty).

(** The check that a list of type names has no repetition. *)
Fixpoint all_distinct (names : list string) : bool :=
  match names with
  | [] => true
  | x :: rest => negb (existsb (String.eqb x) rest) && all_distinct rest
  end.

(** A new entry put in front of position [n] of a list. *)
Definition insert_at (n : nat) (x : ZoneEntry) (entries : list ZoneEntry)
  : list ZoneEntry :=
  (firstn n entries ++ x :: skipn n entries)%list.

(** Modelled from the spec: a zone is a namespace with an id of its own, a
    base offset and an ordered declaration list. *)
Record Zone : Type := {
  zone_id : Z;
  zone_base : Z;
  zone_entries : list ZoneEntry
}.

(** Modelled from the spec: [identityOf<T>()] and [nameOf<T>()], found in
    the first zone that declares [T]. *)
Fixpoint typeIdOf (registry : list Zone) (ty : string) : option TypeId :=
  match registry with
  | [] => None
  | z :: rest =>
      match lookup_type (assign_local_ids (zone_base z) (zone_entries z)) ty with
      | Some (e, l) =>
          Some {| zoneID := zone_id z; localID := l; getName := entry_name e |}
      | None => typeIdOf rest ty
      end
  end.

Definition identityOf (registry : list Zone) (ty : string) : option (Z * Z) :=
  option_map TypeId_value (typeIdOf registry ty).

Definition nameOf (registry : list Zone) (ty : string) : option string :=
  option_map getName (typeIdOf registry ty).

(** ** A concrete instance: input types, request kinds and two zones *)

Module Demo.

Definition IntInput : InputType :=
  {| carrier := Z; elem_eqb := Z.eqb; elem_hash := fun z => z |}.

Definition StringInput : InputType :=
  {| carrier := string;
     elem_eqb := String.eqb;
     elem_hash := fun s => Z.of_nat (String.length s) |}.

Definition collaborators : Collaborators :=
  {| Evaluator := nat;       (* the number of evaluations run so far *)
     Error := string;
     SourceLoc := Z;
     hash_combine := fun id h => ((fst id * 256 + snd id) * 31 + h)%Z;
     hash_combine_range := fold_right (fun h acc => (h + 31 * acc)%Z) 0%Z;
     simple_display_tuple := fun ts s =>
       "(" ++ String.concat ", " (map (fun _ => "_") (tuple_hashes s)) ++ ")";
     UnifiedStatsReporter := unit;
     FrontendStatsTracer := string;    (* the name of the traced request *)
     make_tracer_named := fun _ name _ _ => name |}.

Definition SquareInputs : list InputType := [IntInput; StringInput].

Definition square_evaluate (evaluator : nat) (n : Z) (label : string)
  : Expected string Z * nat :=
  if (n <? 0)%Z then (Failure "negative input", S evaluator)
  else (Success (n * n)%Z, S evaluator).

(** A kind with the templated cycle diagnostics only. *)
Definition SquareRequest : @Kind collaborators :=
  @Build_Kind collaborators
    {| zoneID := 10; localID := 0; getName := "SquareRequest" |}
    Cached Z SquareInputs
    (* evaluate *) square_evaluate
    (* own_diagnoseCycle *) None
    (* own_noteCycleStep *) None
    (* getCycleDiagnosticLoc *) (Some (fun (n : Z) (_ : string) => n))
    (* cycleDiagnostic *) (Some {| diagID := 1 |})
    (* cycleStepDiagnostic *) (Some {| diagID := 2 |}).

(** The same kind under another registry entry. *)
Definition CubeRequest : @Kind collaborators :=
  @Build_Kind collaborators
    {| zoneID := 10; localID := 1; getName := "CubeRequest" |}
    Cached Z SquareInputs
    (* evaluate *) (fun evaluator n _ => (Success (n * n * n)%Z, S evaluator))
    (* own_diagnoseCycle *) None
    (* own_noteCycleStep *) None
    (* getCycleDiagnosticLoc *) (Some (fun (n : Z) (_ : string) => n))
    (* cycleDiagnostic *) (Some {| diagID := 3 |})
    (* cycleStepDiagnostic *) (Some {| diagID := 4 |}).

(** A kind that declares both variants of the cycle diagnostics. *)
Definition BothRequest : @Kind collaborators :=
  @Build_Kind collaborators
    {| zoneID := 10; localID := 2; getName := "BothRequest" |}
    Uncached Z SquareInputs
    (* evaluate *) square_evaluate
    (* own_diagnoseCycle *) (Some (fun _ diags => diags))
    (* own_noteCycleStep *) (Some (fun _ diags => diags))
    (* getCycleDiagnosticLoc *) (Some (fun (n : Z) (_ : string) => n))
    (* cycleDiagnostic *) (Some {| diagID := 1 |})
    (* cycleStepDiagnostic *) (Some {| diagID := 2 |}).

(** A kind that declares neither. *)
Definition BareRequest : @Kind collaborators :=
  @Build_Kind collaborators
    {| zoneID := 10; localID := 3; getName := "BareRequest" |}
    Uncached Z SquareInputs
    (* evaluate *) square_evaluate
    (* own_diagnoseCycle *) None
    (* own_noteCycleStep *) None
    (* getCycleDiagnosticLoc *) None
    (* cycleDiagnostic *) None
    (* cycleStepDiagnostic *) None.

(** A kind whose input pack is empty. *)
Definition NoInputRequest : @Kind collaborators :=
  @Build_Kind collaborators
    {| zoneID := 10; localID := 4; getName := "NoInputRequest" |}
    Uncached Z []
    (* evaluate *) (fun evaluator => (Success 0%Z, S evaluator))
    (* own_diagnoseCycle *) None
    (* own_noteCycleStep *) None
    (* getCycleDiagnosticLoc *) None
    (* cycleDiagnostic *) None
    (* cycleStepDiagnostic *) None.

(** An input kept unreduced: two values are the same input when they agree
    modulo 8, and the hash is the residue. *)
Definition ResidueInput : InputType :=
  {| carrier := Z;
     elem_eqb := fun x y => (x mod 8 =? y mod 8)%Z;
     elem_hash := fun x => (x mod 8)%Z |}.

Definition ResidueRequest : @Kind collaborators :=
  @Build_Kind collaborators
    {| zoneID := 10; localID := 5; getName := "ResidueRequest" |}
    Cached Z [ResidueInput; StringInput]
    (* evaluate *) (fun evaluator n _ => (Success (n mod 8)%Z, S evaluator))
    (* own_diagnoseCycle *) None
    (* own_noteCycleStep *) None
    (* getCycleDiagnosticLoc *) None
    (* cycleDiagnostic *) None
    (* cycleStepDiagnostic *) None.

Definition residue_of (n : Z) (label : string) : SimpleRequest ResidueRequest :=
  {| m_storage := ((n, (label, tt)) : tuple (Inputs ResidueRequest)) |}.

Definition square_of (n : Z) (label : string) : SimpleRequest SquareRequest :=
  {| m_storage := ((n, (label, tt)) : tuple (Inputs SquareRequest)) |}.

Definition RequestZone : Zone :=
  {| zone_id := 10;
     zone_base := 0;
     zone_entries := [
       POLAR_TYPEID_NAMED "SquareRequest" "SquareRequest";
       POLAR_TYPEID_NAMED "CubeRequest" "CubeRequest";
       POLAR_TYPEID_NAMED "BothRequest" "BothRequest";
       POLAR_TYPEID_NAMED "BareRequest" "BareRequest";
       POLAR_TYPEID_NAMED "NoInputRequest" "NoInputRequest";
       POLAR_TYPEID_NAMED "ResidueRequest" "ResidueRequest" ]%list |}.

Definition CZone : Zone :=
  {| zone_id := 0; zone_base := 0; zone_entries := CTypeIdZoneDefs |}.

Definition registry : list Zone := [CZone; RequestZone].

Definition start_env (n : Z) (label : string) : Env SquareRequest :=
  {| env_this := square_of n label;
     env_evaluator := 0%nat;
     env_diags := @nil (@Diagnostic collaborators);
     env_out := "" |}.

(** Every public operation once, in a row. *)
Definition all_operations : list (Operation SquareRequest) :=
  [ OpEq (square_of 3 "x"); OpNe (square_of 4 "x"); OpHashValue;
    OpSimpleDisplay; OpEvaluateRequest; OpDiagnoseCycle; OpNoteCycleStep;
    @OpMakeTracer collaborators SquareRequest tt; OpSimpleDisplay ]%list.

(** An entry for a type the C++ zone does not declare yet. *)
Definition WideChar : ZoneEntry := POLAR_TYPEID_NAMED "wchar_t" "WideChar".

End Demo.

(** ** Notions used by the further properties *)

(** What the [operator==] of an input type may satisfy. *)
Definition eqb_reflexive (t : InputType) : Prop :=
  forall x : carrier t, elem_eqb t x x = true.

Definition eqb_symmetric (t : InputType) : Prop :=
  forall x y : carrier t, elem_eqb t x y = elem_eqb t y x.

Definition eqb_transitive (t : InputType) : Prop :=
  forall x y z : carrier t,
    elem_eqb t x y = true -> elem_eqb t y z = true -> elem_eqb t x z = true.

(** The [operator==] of the type holds for identical values and no others. *)
Definition eqb_decides_identity (t : InputType) : Prop :=
  forall x y : carrier t, elem_eqb t x y = true <-> x = y.

Section RepeatedCalls.

Context `{Collaborators}.

(** Derived's evaluate called [n] times in a row on the same inputs, each
    call starting from the evaluator the call before it left. *)
Fixpoint evaluate_repeatedly (K : Kind) (inputs : tuple (Inputs K)) (n : nat)
  (evaluator : Evaluator) : list (Expected Error (Output K)) * Evaluator :=
  match n with
  | O => ([], evaluator)
  | S m =>
      let res := apply_tuple (evaluate K evaluator) inputs in
      let rest := evaluate_repeatedly K inputs m (snd res) in
      (fst res :: fst rest, snd rest)
  end%list.

(** The diagnostic a templated hook emits for a request. *)
Definition templated_diagnostic (K : Kind) (loc : arrow (Inputs K) SourceLoc)
  (diag : Diag (Inputs K)) (request : SimpleRequest K) : Diagnostic :=
  Emitted (Inputs K) (apply_tuple loc (m_storage request)) diag
          (m_storage request).

End RepeatedCalls.

Module DemoMore.

(** A kind that declares diagnoseCycle itself and leaves noteCycleStep to
    the templates. *)
Definition MixedRequest : @Kind Demo.collaborators :=
  @Build_Kind Demo.collaborators
    {| zoneID := 10; localID := 6; getName := "MixedRequest" |}
    Uncached Z Demo.SquareInputs
    (* evaluate *) Demo.square_evaluate
    (* own_diagnoseCycle *)
      (Some (fun (s : tuple Demo.SquareInputs) diags =>
               @diagnose Demo.collaborators diags Demo.SquareInputs
                         0%Z {| diagID := 9 |} s))
    (* own_noteCycleStep *) None
    (* getCycleDiagnosticLoc *) (Some (fun (n : Z) (_ : string) => n))
    (* cycleDiagnostic *) None
    (* cycleStepDiagnostic *) (Some {| diagID := 2 |}).

Definition mixed_of (n : Z) (label : string) : SimpleRequest MixedRequest :=
  {| m_storage := ((n, (label, tt)) : tuple (Inputs MixedRequest)) |}.

(** An input compared up to its sign but hashed with its sign: the hash of
    this type does not agree with its operator==. *)
Definition MagnitudeInput : InputType :=
  {| carrier := Z;
     elem_eqb := fun x y => (Z.abs x =? Z.abs y)%Z;
     elem_hash := fun x => x |}.

Definition MagnitudeRequest : @Kind Demo.collaborators :=
  @Build_Kind Demo.collaborators
    {| zoneID := 10; localID := 7; getName := "MagnitudeRequest" |}
    Cached Z [MagnitudeInput]
    (* evaluate *) (fun evaluator n => (Success (Z.abs n), S evaluator))
    (* own_diagnoseCycle *) None
    (* own_noteCycleStep *) None
    (* getCycleDiagnosticLoc *) None
    (* cycleDiagnostic *) None
    (* cycleStepDiagnostic *) None.

Definition magnitude_of (n : Z) : SimpleRequest MagnitudeRequest :=
  {| m_storage := ((n, tt) : tuple (Inputs MagnitudeRequest)) |}.

End DemoMore.

(** ** The member functions as methods on a request object *)

Module Methods.

Section Bodies.

Context `{Collaborators}.

Variable K : Kind.

(** The body of a member function: a computation over the objects it can
    reach (the request it is called on, the evaluator, the diagnostic engine
    and the stream), which may also fail to instantiate. *)
Definition Method (A : Type) : Type := Env K -> Instantiated (A * Env K).

Definition ret {A : Type} (a : A) : Method A :=
  fun e => WellFormed (a, e).

Definition bind {A B : Type} (m : Method A) (k : A -> Method B) : Method B :=
  fun e =>
    match m e with
    | WellFormed (a, e1) => k a e1
    | IllFormed why => IllFormed why
    end.

Definition ill_formed {A : Type} (why : string) : Method A :=
  fun _ => IllFormed why.

Local Notation "x <- m ;; k" := (bind m (fun x => k))
  (at level 61, m at next level, right associativity).
Local Notation "m ;;; k" := (bind m (fun _ => k))
  (at level 61, right associativity).

(** Reading and writing the data member [m_storage] of the request. *)
Definition read_storage : Method (tuple (Inputs K)) :=
  fun e => WellFormed (m_storage (env_this e), e).

Definition write_storage (s : tuple (Inputs K)) : Method unit :=
  fun e =>
    WellFormed (tt,
      {| env_this := {| m_storage := s |};
         env_evaluator := env_evaluator e;
         env_diags := env_diags e;
         env_out := env_out e |}).

(** Reading and writing the objects passed by reference. *)
Definition read_evaluator : Method Evaluator :=
  fun e => WellFormed (env_evaluator e, e).

Definition write_evaluator (evaluator : Evaluator) : Method unit :=
  fun e =>
    WellFormed (tt,
      {| env_this := env_this e;
         env_evaluator := evaluator;
         env_diags := env_diags e;
         env_out := env_out e |}).

Definition read_diags : Method DiagnosticEngine :=
  fun e => WellFormed (env_diags e, e).

Definition write_diags (diags : DiagnosticEngine) : Method unit :=
  fun e =>
    WellFormed (tt,
      {| env_this := env_this e;
         env_evaluator := env_evaluator e;
         env_diags := diags;
         env_out := env_out e |}).

Definition read_out : Method RawOutStream :=
  fun e => WellFormed (env_out e, e).

Definition write_out (out : RawOutStream) : Method unit :=
  fun e =>
    WellFormed (tt,
      {| env_this := env_this e;
         env_evaluator := env_evaluator e;
         env_diags := env_diags e;
         env_out := out |}).

(** [explicit SimpleRequest(const Inputs& ...inputs) : m_storage(inputs...)]:
    the one place that writes [m_storage]. *)
Definition construct : arrow (Inputs K) (Method unit) :=
  make_tuple (fun s => write_storage s).

(** [const std::tuple<Inputs...> &getStorage() const { return m_storage; }] *)
Definition getStorage : Method (tuple (Inputs K)) := read_storage.

(** [callDerived]: static_assert, then
    [return asDerived().evaluate(evaluator, std::get<Indices>(m_storage)...)];
    evaluate may change the evaluator it is given. *)
Definition callDerived (idxs : index_sequence (Inputs K) (Inputs K))
  : Method (Expected Error (Output K)) :=
  if Nat.ltb 0 (sizeof_pack idxs)
  then s <- read_storage ;;
       evaluator <- read_evaluator ;;
       write_evaluator (snd (expand_call idxs s (evaluate K evaluator))) ;;;
       ret (fst (expand_call idxs s (evaluate K evaluator)))
  else ill_formed "Subclass must define evaluate()".

(** [return request.callDerived(evaluator, index_sequence_for<Inputs...>())] *)
Definition evaluateRequest : Method (Expected Error (Output K)) :=
  callDerived (index_sequence_for (Inputs K)).

(** [diags.diagnose(asDerived().getCycleDiagnosticLoc(
       std::get<Indices>(m_storage)...), diag,
       std::get<Indices>(m_storage)...)] *)
Definition diagnoseImpl (diag : Diag (Inputs K))
  (idxs : index_sequence (Inputs K) (Inputs K)) : Method unit :=
  match getCycleDiagnosticLoc K with
  | Some loc =>
      s <- read_storage ;;
      diags <- read_diags ;;
      write_diags (diagnose diags (expand_call idxs s loc) diag
                            (expand_pack idxs s))
  | None => ill_formed "no member named getCycleDiagnosticLoc in Derived"
  end.

Definition diagnoseCycle : Method unit :=
  match cycleDiagnostic K with
  | Some diag => diagnoseImpl diag (index_sequence_for (Inputs K))
  | None => ill_formed "no member named cycleDiagnostic in Derived"
  end.

Definition noteCycleStep : Method unit :=
  match cycleStepDiagnostic K with
  | Some diag => diagnoseImpl diag (index_sequence_for (Inputs K))
  | None => ill_formed "no member named cycleStepDiagnostic in Derived"
  end.

(** The hook a [Derived] request answers with: its own member, which
    reaches the inputs through [getStorage()], or else the inherited one. *)
Definition Derived_diagnoseCycle : Method unit :=
  match own_diagnoseCycle K with
  | Some f =>
      s <- getStorage ;; diags <- read_diags ;; write_diags (f s diags)
  | None => diagnoseCycle
  end.

Definition Derived_noteCycleStep : Method unit :=
  match own_noteCycleStep K with
  | Some f =>
      s <- getStorage ;; diags <- read_diags ;; write_diags (f s diags)
  | None => noteCycleStep
  end.

(** [return lhs.m_storage == rhs.m_storage], called on [lhs]. *)
Definition operator_eq (rhs : SimpleRequest K) : Method bool :=
  s <- read_storage ;; ret (tuple_eqb s (m_storage rhs)).

(** [return !(lhs == rhs)] *)
Definition operator_ne (rhs : SimpleRequest K) : Method bool :=
  b <- operator_eq rhs ;; ret (negb b).

(** [return hash_combine(TypeId<Derived>::value, request.m_storage)] *)
Definition hash_value : Method Z :=
  s <- read_storage ;;
  ret (hash_combine (TypeId_value (typeId K)) (hash_value_tuple (Inputs K) s)).

(** [out << TypeId<Derived>::getName(); simple_display(out, request.m_storage)] *)
Definition simple_display : Method unit :=
  out <- read_out ;;
  write_out (stream_write out (getName (typeId K))) ;;;
  s <- read_storage ;;
  out1 <- read_out ;;
  write_out (stream_write out1 (simple_display_tuple (Inputs K) s)).

(** [return make_tracer(reporter, TypeId<Derived>::getName(),
                        request.m_storage)] *)
Definition make_tracer (reporter : UnifiedStatsReporter)
  : Method FrontendStatsTracer :=
  s <- read_storage ;;
  ret (make_tracer_named reporter (getName (typeId K)) (Inputs K) s).

(** One call of a public operation on the request. *)
Definition call (op : Operation K) : Method (Returned K) :=
  match op with
  | OpEq rhs => b <- operator_eq rhs ;; ret (RetBool b)
  | OpNe rhs => b <- operator_ne rhs ;; ret (RetBool b)
  | OpHashValue => h <- hash_value ;; ret (RetHash h)
  | OpSimpleDisplay => simple_display ;;; ret RetVoid
  | OpEvaluateRequest => r <- evaluateRequest ;; ret (RetExpected r)
  | OpDiagnoseCycle => Derived_diagnoseCycle ;;; ret RetVoid
  | OpNoteCycleStep => Derived_noteCycleStep ;;; ret RetVoid
  | OpMakeTracer reporter => t <- make_tracer reporter ;; ret (RetTracer t)
  end.

(** A sequence of calls, first to last. *)
Fixpoint call_all (ops : list (Operation K)) : Method (list (Returned K)) :=
  match ops with
  | [] => ret []
  | op :: rest =>
      r <- call op ;; rs <- call_all rest ;; ret (r :: rs)
  end%list.

(** The life of a request: constructed from [inputs], then used. *)
Definition construct_then (inputs : tuple (Inputs K))
  (ops : list (Operation K)) : Method (list (Returned K)) :=
  apply_tuple construct inputs ;;; call_all ops.

(** A method that leaves the request it is called on as it found it. *)
Definition keeps_request {A : Type} (m : Method A) : Prop :=
  forall (e e' : Env K) (a : A),
    m e = WellFormed (a, e') -> env_this e' = env_this e.

End Bodies.

Arguments ret {_ K A} a.
Arguments bind {_ K A B} m k.
Arguments ill_formed {_ K A} why.
Arguments keeps_request {_ K A} m.
Arguments operator_eq {_ K} rhs.
Arguments operator_ne {_ K} rhs.
Arguments make_tracer {_ K} reporter.
Arguments call {_ K} op.
Arguments call_all {_ K} ops.
Arguments construct_then {_ K} inputs ops.

End Methods.

(** * Properties *)

(** ** Tuples, indices and pack expansions *)

Section TupleFacts.

Lemma apply_make_tuple (ts : list InputType) (R : Type)
  (k : tuple ts -> R) (s : tuple ts) :
  apply_tuple (make_tuple k) s = k s.
Proof.
  induction ts as [|t ts IH]; simpl.
  - destruct s. reflexivity.
  - destruct s as [x s]. simpl. rewrite IH. reflexivity.
Qed.

Lemma sizeof_shift_pack (u : InputType) (all ts : list InputType)
  (idxs : index_sequence all ts) :
  sizeof_pack (shift_pack u idxs) = sizeof_pack idxs.
Proof.
  induction idxs as [|t ts i rest IH]; simpl; congruence.
Qed.

Lemma sizeof_index_sequence_for (ts : list InputType) :
  sizeof_pack (index_sequence_for ts) = List.length ts.
Proof.
  induction ts as [|t ts IH]; simpl; trivial.
  rewrite sizeof_shift_pack. congruence.
Qed.

Lemma positions_shift_pack (u : InputType) (all ts : list InputType)
  (idxs : index_sequence all ts) :
  pack_positions (shift_pack u idxs) = map S (pack_positions idxs).
Proof.
  induction idxs as [|t ts i rest IH]; simpl; congruence.
Qed.

(** index_sequence_for is the pack 0, 1, ..., N-1 in this order. *)
Lemma positions_index_sequence_for (ts : list InputType) :
  pack_positions (index_sequence_for ts) = seq 0 (List.length ts).
Proof.
  induction ts as [|t ts IH]; simpl; trivial.
  rewrite positions_shift_pack, IH, seq_shift. reflexivity.
Qed.

Lemma expand_call_shift (u : InputType) (all ts : list InputType) (R : Type)
  (idxs : index_sequence all ts) (x : carrier u) (s : tuple all)
  (f : arrow ts R) :
  expand_call (shift_pack u idxs) ((x, s) : tuple (u :: all)) f
  = expand_call idxs s f.
Proof.
  induction idxs as [|t ts i rest IH]; simpl; trivial.
Qed.

(** Expanding the full index sequence passes the elements first to last. *)
Lemma expand_call_index_sequence_for (ts : list InputType) (R : Type)
  (s : tuple ts) (f : arrow ts R) :
  expand_call (index_sequence_for ts) s f = apply_tuple f s.
Proof.
  induction ts as [|t ts IH]; simpl; trivial.
  destruct s as [x s]. simpl.
  rewrite expand_call_shift. apply IH.
Qed.

Lemma expand_pack_shift (u : InputType) (all ts : list InputType)
  (idxs : index_sequence all ts) (x : carrier u) (s : tuple all) :
  expand_pack (shift_pack u idxs) ((x, s) : tuple (u :: all))
  = expand_pack idxs s.
Proof.
  induction idxs as [|t ts i rest IH]; simpl; trivial.
  rewrite IH. reflexivity.
Qed.

Lemma expand_pack_index_sequence_for (ts : list InputType) (s : tuple ts) :
  expand_pack (index_sequence_for ts) s = s.
Proof.
  induction ts as [|t ts IH]; simpl.
  - destruct s. reflexivity.
  - destruct s as [x s]. simpl. rewrite expand_pack_shift, IH. reflexivity.
Qed.

Lemma tuple_hashes_respect_eqb (ts : list InputType) (a b : tuple ts) :
  Forall hash_respects_eqb ts ->
  tuple_eqb a b = true -> tuple_hashes a = tuple_hashes b.
Proof.
  induction ts as [|t ts IH]; simpl; intros Hlaw Heq; trivial.
  apply andb_true_iff in Heq. destruct Heq as [Hhd Htl].
  inversion Hlaw as [|t' ts' Ht Hts]; subst.
  rewrite (Ht _ _ Hhd), (IH _ _ Hts Htl). reflexivity.
Qed.

End TupleFacts.

(** ** The request base class *)

Section RequestFacts.

Context `{Collaborators}.

Lemma string_append_assoc (a b c : string) :
  ((a ++ b) ++ c = a ++ (b ++ c))%string.
Proof.
  induction a as [|ch a IH]; simpl; congruence.
Qed.

(** C1: operator== on two requests of one kind returns true exactly when
    the stored tuples are equal element by element, i.e. when at every index
    of the input pack the two stored elements compare equal. *)
Theorem operator_eq_iff_elementwise (K : Kind) (lhs rhs : SimpleRequest K) :
  operator_eq lhs rhs = true <->
  (forall (t : InputType) (i : index (Inputs K) t),
      elem_eqb t (get i (m_storage lhs)) (get i (m_storage rhs)) = true).
Proof.
  unfold operator_eq.
  generalize (m_storage lhs) (m_storage rhs).
  generalize (Inputs K). clear lhs rhs K.
  intros ts a b. split.
  - intros Heq t i. revert a b Heq.
    induction i as [t ts|t u ts j IH]; simpl; intros a b Heq;
      apply andb_true_iff in Heq; destruct Heq as [Hhd Htl].
    + exact Hhd.
    + apply IH. exact Htl.
  - induction ts as [|t ts IH]; simpl; intros Hall; trivial.
    apply andb_true_iff. split.
    + exact (Hall t (IZ t ts)).
    + apply IH. intros t' j. exact (Hall t' (IS t j)).
Qed.

(** Two tuples that are the same tuple over the same pack of types have the
    same hash. *)
Lemma hash_value_tuple_of_packed (ts ts' : list InputType)
  (s : tuple ts) (s' : tuple ts') :
  existT tuple ts s = existT tuple ts' s' ->
  hash_value_tuple ts s = hash_value_tuple ts' s'.
Proof.
  intros Hpacked.
  change (hash_value_tuple (projT1 (existT tuple ts s))
                           (projT2 (existT tuple ts s))
          = hash_value_tuple ts' s').
  rewrite Hpacked. reflexivity.
Qed.

(** C2 (as amended): hash_value depends on nothing but the kind's registry
    identity and the stored input tuple (two requests, even of two kinds,
    that agree on both hash alike), and it is consistent with equality for
    every kind whose input types each have a hash that agrees with their
    operator==: two requests of such a kind that compare equal have the same
    hash. *)
Theorem hash_value_pure_and_consistent (K : Kind) :
  (forall (K' : Kind) (r : SimpleRequest K) (r' : SimpleRequest K'),
      TypeId_value (typeId K) = TypeId_value (typeId K') ->
      existT tuple (Inputs K) (m_storage r)
        = existT tuple (Inputs K') (m_storage r') ->
      hash_value r = hash_value r')
  /\ (Forall hash_respects_eqb (Inputs K) ->
      forall r1 r2 : SimpleRequest K,
        operator_eq r1 r2 = true -> hash_value r1 = hash_value r2).
Proof.
  split.
  - intros K' r r' Hid Hsame. unfold hash_value.
    rewrite Hid, (hash_value_tuple_of_packed _ _ _ _ Hsame). reflexivity.
  - intros Hlaw r1 r2 Heq. unfold hash_value, hash_value_tuple.
    unfold operator_eq in Heq.
    rewrite (tuple_hashes_respect_eqb _ _ _ Hlaw Heq). reflexivity.
Qed.

Lemma callDerived_nonempty (K : Kind) :
  Inputs K <> [] ->
  evaluateRequest K
  = WellFormed (fun this evaluator =>
      expand_call (index_sequence_for (Inputs K)) (m_storage this)
                  (evaluate K evaluator)).
Proof.
  intros Hne. unfold evaluateRequest, callDerived.
  rewrite sizeof_index_sequence_for.
  assert (Hlt : Nat.ltb 0 (List.length (Inputs K)) = true)
    by (destruct (Inputs K); [contradiction|reflexivity]).
  rewrite Hlt. reflexivity.
Qed.

(** C3: for a kind with at least one input, evaluateRequest returns exactly
    what the kind's evaluate returns when called on the evaluator and the
    stored inputs in declaration order (the indices expanded are 0, 1, ...,
    N-1); in particular a failure comes back as the same failure, and a
    success as the same value. *)
Theorem evaluateRequest_forwards (K : Kind) :
  Inputs K <> [] ->
  exists f,
    evaluateRequest K = WellFormed f
    /\ pack_positions (index_sequence_for (Inputs K))
       = seq 0 (List.length (Inputs K))
    /\ (forall (this : SimpleRequest K) (evaluator : Evaluator),
          f this evaluator
          = apply_tuple (evaluate K evaluator) (m_storage this))
    /\ (forall this evaluator e evaluator',
          apply_tuple (evaluate K evaluator) (m_storage this)
            = (Failure e, evaluator') ->
          f this evaluator = (Failure e, evaluator'))
    /\ (forall this evaluator v evaluator',
          apply_tuple (evaluate K evaluator) (m_storage this)
            = (Success v, evaluator') ->
          f this evaluator = (Success v, evaluator')).
Proof.
  intros Hne. eexists. split; [apply (callDerived_nonempty K Hne)|].
  split; [apply positions_index_sequence_for|].
  assert (Hcall : forall this evaluator,
             expand_call (index_sequence_for (Inputs K)) (m_storage this)
                         (evaluate K evaluator)
             = apply_tuple (evaluate K evaluator) (m_storage this))
    by (intros; apply expand_call_index_sequence_for).
  repeat split; intros; cbv beta; rewrite Hcall; trivial.
Qed.

(** C10: a kind whose input pack is empty cannot be evaluated: instantiating
    evaluateRequest for it stops the build at the static assertion of
    callDerived, so every kind for which evaluateRequest exists has at least
    one input. *)
Theorem evaluateRequest_needs_an_input (K : Kind) :
  (Inputs K = [] ->
   evaluateRequest K = IllFormed "Subclass must define evaluate()")
  /\ (forall f, evaluateRequest K = WellFormed f ->
                1 <= List.length (Inputs K)).
Proof.
  unfold evaluateRequest, callDerived.
  rewrite sizeof_index_sequence_for.
  destruct (Nat.ltb 0 (List.length (Inputs K))) eqn:Hlt; split.
  - intros Hnil. rewrite Hnil in Hlt. discriminate Hlt.
  - intros f _. apply Nat.ltb_lt in Hlt. exact Hlt.
  - reflexivity.
  - intros f Hwf. discriminate Hwf.
Qed.

(** C4 (as amended): the hooks of a kind build exactly when each of them is
    obtainable, diagnoseCycle from the kind's own member or else from
    getCycleDiagnosticLoc and cycleDiagnostic, noteCycleStep from the kind's
    own member or else from getCycleDiagnosticLoc and cycleStepDiagnostic.
    So a kind with one complete variant builds, whatever else it declares;
    a kind for which one of the hooks is obtainable in neither way, such as
    a kind that declares none of the five members, is rejected when its
    hooks are instantiated; and a member declared by the kind itself is the
    one that is called. *)
Theorem cycle_hooks_build_exactly_when (K : Kind) :
  cycle_hooks_build K
  = ((provided (own_diagnoseCycle K)
      || (provided (cycleDiagnostic K) && provided (getCycleDiagnosticLoc K)))
     && (provided (own_noteCycleStep K)
         || (provided (cycleStepDiagnostic K)
             && provided (getCycleDiagnosticLoc K))))
  /\ (has_direct_variant K || has_templated_variant K = true ->
      cycle_hooks_build K = true)
  /\ (provided (own_diagnoseCycle K) || provided (own_noteCycleStep K)
      || provided (getCycleDiagnosticLoc K) || provided (cycleDiagnostic K)
      || provided (cycleStepDiagnostic K) = false ->
      cycle_hooks_build K = false)
  /\ (provided (own_diagnoseCycle K)
      || (provided (cycleDiagnostic K) && provided (getCycleDiagnosticLoc K))
      = false ->
      is_well_formed (Derived_diagnoseCycle K) = false
      /\ cycle_hooks_build K = false)
  /\ (provided (own_noteCycleStep K)
      || (provided (cycleStepDiagnostic K)
          && provided (getCycleDiagnosticLoc K)) = false ->
      is_well_formed (Derived_noteCycleStep K) = false
      /\ cycle_hooks_build K = false)
  /\ (forall f, own_diagnoseCycle K = Some f ->
        Derived_diagnoseCycle K
        = WellFormed (fun this diags => f (getStorage this) diags))
  /\ (forall f, own_noteCycleStep K = Some f ->
        Derived_noteCycleStep K
        = WellFormed (fun this diags => f (getStorage this) diags)).
Proof.
  assert (Hexact :
    cycle_hooks_build K
    = ((provided (own_diagnoseCycle K)
        || (provided (cycleDiagnostic K) && provided (getCycleDiagnosticLoc K)))
       && (provided (own_noteCycleStep K)
           || (provided (cycleStepDiagnostic K)
               && provided (getCycleDiagnosticLoc K))))).
  { unfold cycle_hooks_build, Derived_diagnoseCycle, Derived_noteCycleStep,
      diagnoseCycle, noteCycleStep, diagnoseImpl.
    destruct (own_diagnoseCycle K), (own_noteCycleStep K),
      (cycleDiagnostic K), (cycleStepDiagnostic K),
      (getCycleDiagnosticLoc K); reflexivity. }
  split; [exact Hexact|].
  split; [|split; [|split; [|split; [|split]]]].
  - rewrite Hexact. unfold has_direct_variant, has_templated_variant.
    destruct (provided (own_diagnoseCycle K)),
      (provided (own_noteCycleStep K)), (provided (cycleDiagnostic K)),
      (provided (cycleStepDiagnostic K)),
      (provided (getCycleDiagnosticLoc K)); simpl; intros Hv;
      trivial; discriminate Hv.
  - rewrite Hexact.
    destruct (provided (own_diagnoseCycle K)),
      (provided (own_noteCycleStep K)), (provided (cycleDiagnostic K)),
      (provided (cycleStepDiagnostic K)),
      (provided (getCycleDiagnosticLoc K)); simpl; intros Hv;
      trivial; discriminate Hv.
  - rewrite Hexact.
    unfold Derived_diagnoseCycle, diagnoseCycle, diagnoseImpl.
    destruct (own_diagnoseCycle K), (cycleDiagnostic K),
      (getCycleDiagnosticLoc K); simpl; intros Hv;
      (discriminate Hv || (split; reflexivity)).
  - rewrite Hexact.
    unfold Derived_noteCycleStep, noteCycleStep, diagnoseImpl.
    destruct (own_noteCycleStep K), (cycleStepDiagnostic K),
      (getCycleDiagnosticLoc K); simpl; intros Hv;
      try discriminate Hv;
      (split; [reflexivity|apply andb_false_r]).
  - intros f Hown. unfold Derived_diagnoseCycle. rewrite Hown. reflexivity.
  - intros f Hown. unfold Derived_noteCycleStep. rewrite Hown. reflexivity.
Qed.

(** C5: for a kind that uses the templated variant, diagnoseCycle adds
    exactly one diagnostic, built from cycleDiagnostic, and noteCycleStep
    exactly one, built from cycleStepDiagnostic; each is located at
    getCycleDiagnosticLoc of the stored inputs and carries the stored inputs,
    in declaration order, as its arguments. *)
Theorem templated_hooks_emit_one_diagnostic (K : Kind)
  (loc : arrow (Inputs K) SourceLoc) (head step : Diag (Inputs K)) :
  own_diagnoseCycle K = None ->
  own_noteCycleStep K = None ->
  getCycleDiagnosticLoc K = Some loc ->
  cycleDiagnostic K = Some head ->
  cycleStepDiagnostic K = Some step ->
  exists fc fs,
    Derived_diagnoseCycle K = WellFormed fc
    /\ Derived_noteCycleStep K = WellFormed fs
    /\ forall (this : SimpleRequest K) (diags : DiagnosticEngine),
         fc this diags
         = (diags ++ [Emitted (Inputs K) (apply_tuple loc (m_storage this))
                              head (m_storage this)])%list
         /\ fs this diags
            = (diags ++ [Emitted (Inputs K) (apply_tuple loc (m_storage this))
                                 step (m_storage this)])%list.
Proof.
  intros Hdc Hns Hloc Hhead Hstep.
  unfold Derived_diagnoseCycle, Derived_noteCycleStep, diagnoseCycle,
    noteCycleStep, diagnoseImpl.
  rewrite Hdc, Hns, Hloc, Hhead, Hstep.
  do 2 eexists. split; [reflexivity|]. split; [reflexivity|].
  intros this diags. cbv beta. unfold diagnose.
  rewrite expand_call_index_sequence_for, expand_pack_index_sequence_for.
  split; reflexivity.
Qed.


(** *** Which methods leave the request alone *)

Lemma keeps_request_ret (K : Kind) (A : Type) (a : A) :
  Methods.keeps_request (K := K) (Methods.ret a).
Proof.
  intros e e' a' Hrun. inversion Hrun. reflexivity.
Qed.

Lemma keeps_request_ill_formed (K : Kind) (A : Type) (why : string) :
  Methods.keeps_request (K := K) (A := A) (Methods.ill_formed why).
Proof.
  intros e e' a Hrun. discriminate Hrun.
Qed.

Lemma keeps_request_bind (K : Kind) (A B : Type)
  (m : Methods.Method K A) (k : A -> Methods.Method K B) :
  Methods.keeps_request m ->
  (forall a : A, Methods.keeps_request (k a)) ->
  Methods.keeps_request (Methods.bind m k).
Proof.
  intros Hm Hk e e' b Hrun. unfold Methods.bind in Hrun.
  destruct (m e) as [[a e1]|why] eqn:Hfirst; [|discriminate Hrun].
  rewrite (Hk a e1 e' b Hrun). apply (Hm e e1 a Hfirst).
Qed.

Lemma keeps_request_read_storage (K : Kind) :
  Methods.keeps_request (Methods.read_storage K).
Proof.
  intros e e' a Hrun. inversion Hrun. reflexivity.
Qed.

Lemma keeps_request_read_evaluator (K : Kind) :
  Methods.keeps_request (Methods.read_evaluator K).
Proof.
  intros e e' a Hrun. inversion Hrun. reflexivity.
Qed.

Lemma keeps_request_read_diags (K : Kind) :
  Methods.keeps_request (Methods.read_diags K).
Proof.
  intros e e' a Hrun. inversion Hrun. reflexivity.
Qed.

Lemma keeps_request_read_out (K : Kind) :
  Methods.keeps_request (Methods.read_out K).
Proof.
  intros e e' a Hrun. inversion Hrun. reflexivity.
Qed.

Lemma keeps_request_write_evaluator (K : Kind) (evaluator : Evaluator) :
  Methods.keeps_request (Methods.write_evaluator K evaluator).
Proof.
  intros e e' a Hrun. inversion Hrun. reflexivity.
Qed.

Lemma keeps_request_write_diags (K : Kind) (diags : DiagnosticEngine) :
  Methods.keeps_request (Methods.write_diags K diags).
Proof.
  intros e e' a Hrun. inversion Hrun. reflexivity.
Qed.

Lemma keeps_request_write_out (K : Kind) (out : RawOutStream) :
  Methods.keeps_request (Methods.write_out K out).
Proof.
  intros e e' a Hrun. inversion Hrun. reflexivity.
Qed.

(** Writing [m_storage] is what a method must not do: it replaces the
    stored tuple, whatever it was. *)
Lemma write_storage_replaces (K : Kind) (s : tuple (Inputs K)) (e e' : Env K)
  (a : unit) :
  Methods.write_storage K s e = WellFormed (a, e') ->
  m_storage (env_this e') = s.
Proof.
  intros Hrun. inversion Hrun. reflexivity.
Qed.

Create HintDb frame.

#[local] Hint Resolve keeps_request_ret keeps_request_ill_formed
  keeps_request_bind keeps_request_read_storage keeps_request_read_evaluator
  keeps_request_read_diags keeps_request_read_out
  keeps_request_write_evaluator keeps_request_write_diags
  keeps_request_write_out : frame.

Lemma keeps_request_callDerived (K : Kind)
  (idxs : index_sequence (Inputs K) (Inputs K)) :
  Methods.keeps_request (Methods.callDerived K idxs).
Proof.
  unfold Methods.callDerived.
  destruct (Nat.ltb 0 (sizeof_pack idxs)); auto 10 with frame.
Qed.

Lemma keeps_request_diagnoseImpl (K : Kind) (diag : Diag (Inputs K))
  (idxs : index_sequence (Inputs K) (Inputs K)) :
  Methods.keeps_request (Methods.diagnoseImpl K diag idxs).
Proof.
  unfold Methods.diagnoseImpl.
  destruct (getCycleDiagnosticLoc K); auto 10 with frame.
Qed.

Lemma keeps_request_Derived_diagnoseCycle (K : Kind) :
  Methods.keeps_request (Methods.Derived_diagnoseCycle K).
Proof.
  unfold Methods.Derived_diagnoseCycle, Methods.diagnoseCycle,
    Methods.getStorage.
  destruct (own_diagnoseCycle K); [auto 10 with frame|].
  destruct (cycleDiagnostic K);
    [apply keeps_request_diagnoseImpl|auto with frame].
Qed.

Lemma keeps_request_Derived_noteCycleStep (K : Kind) :
  Methods.keeps_request (Methods.Derived_noteCycleStep K).
Proof.
  unfold Methods.Derived_noteCycleStep, Methods.noteCycleStep,
    Methods.getStorage.
  destruct (own_noteCycleStep K); [auto 10 with frame|].
  destruct (cycleStepDiagnostic K);
    [apply keeps_request_diagnoseImpl|auto with frame].
Qed.

Lemma keeps_request_call (K : Kind) (op : Operation K) :
  Methods.keeps_request (Methods.call op).
Proof.
  destruct op; unfold Methods.call.
  - unfold Methods.operator_eq. auto 10 with frame.
  - unfold Methods.operator_ne, Methods.operator_eq. auto 10 with frame.
  - unfold Methods.hash_value. auto 10 with frame.
  - unfold Methods.simple_display. auto 20 with frame.
  - apply keeps_request_bind; [|auto with frame].
    apply keeps_request_callDerived.
  - apply keeps_request_bind; [|auto with frame].
    apply keeps_request_Derived_diagnoseCycle.
  - apply keeps_request_bind; [|auto with frame].
    apply keeps_request_Derived_noteCycleStep.
  - unfold Methods.make_tracer. auto 10 with frame.
Qed.

Lemma keeps_request_call_all (K : Kind) (ops : list (Operation K)) :
  Methods.keeps_request (Methods.call_all ops).
Proof.
  induction ops as [|op ops IH]; simpl.
  - apply keeps_request_ret.
  - apply keeps_request_bind; [apply keeps_request_call|].
    intros r. apply keeps_request_bind; [exact IH|].
    intros rs. apply keeps_request_ret.
Qed.

(** The methods return what the operations above return, and leave the
    evaluator, the diagnostics and the stream as those say. *)
Lemma method_call_is_perform (K : Kind) (op : Operation K) (e : Env K) :
  Methods.call op e = perform op e.
Proof.
  destruct op; try (destruct e; reflexivity).
  - unfold Methods.call, Methods.evaluateRequest, Methods.callDerived,
      perform, evaluateRequest, callDerived.
    destruct (Nat.ltb 0 (sizeof_pack (index_sequence_for (Inputs K))));
      reflexivity.
  - unfold Methods.call, Methods.Derived_diagnoseCycle, Methods.diagnoseCycle,
      Methods.diagnoseImpl, perform, Derived_diagnoseCycle, diagnoseCycle,
      diagnoseImpl.
    destruct (own_diagnoseCycle K); [reflexivity|].
    destruct (cycleDiagnostic K); [|reflexivity].
    destruct (getCycleDiagnosticLoc K); reflexivity.
  - unfold Methods.call, Methods.Derived_noteCycleStep, Methods.noteCycleStep,
      Methods.diagnoseImpl, perform, Derived_noteCycleStep, noteCycleStep,
      diagnoseImpl.
    destruct (own_noteCycleStep K); [reflexivity|].
    destruct (cycleStepDiagnostic K); [|reflexivity].
    destruct (getCycleDiagnosticLoc K); reflexivity.
Qed.

(** C8: the constructor writes the stored tuple, and it is the only member
    function that does.  Written as methods that can read and write the
    request they are called on, operator==, operator!=, hash_value,
    simple_display, evaluateRequest, the two cycle hooks and make_tracer
    only read it: after any call and after any sequence of calls the request
    is the request it was, so a request constructed from [inputs] still
    stores [inputs] whatever was called on it since. *)
Theorem storage_fixed_at_construction (K : Kind) (inputs : tuple (Inputs K)) :
  (forall e : Env K,
      apply_tuple (Methods.construct K) inputs e
      = WellFormed (tt,
          {| env_this := {| m_storage := inputs |};
             env_evaluator := env_evaluator e;
             env_diags := env_diags e;
             env_out := env_out e |}))
  /\ (forall (op : Operation K) (e e' : Env K) (r : Returned K),
        Methods.call op e = WellFormed (r, e') -> env_this e' = env_this e)
  /\ (forall (ops : list (Operation K)) (e e' : Env K)
             (rs : list (Returned K)),
        Methods.call_all ops e = WellFormed (rs, e') ->
        env_this e' = env_this e)
  /\ (forall (ops : list (Operation K)) (e e' : Env K)
             (rs : list (Returned K)),
        Methods.construct_then inputs ops e = WellFormed (rs, e') ->
        m_storage (env_this e') = inputs).
Proof.
  assert (Hnew : forall e : Env K,
             apply_tuple (Methods.construct K) inputs e
             = WellFormed (tt,
                 {| env_this := {| m_storage := inputs |};
                    env_evaluator := env_evaluator e;
                    env_diags := env_diags e;
                    env_out := env_out e |})).
  { intros e. unfold Methods.construct. rewrite apply_make_tuple.
    reflexivity. }
  split; [exact Hnew|]. split; [|split].
  - intros op. apply keeps_request_call.
  - intros ops. apply keeps_request_call_all.
  - intros ops e e' rs Hrun.
    unfold Methods.construct_then, Methods.bind in Hrun.
    rewrite Hnew in Hrun.
    rewrite (keeps_request_call_all K ops _ _ _ Hrun). reflexivity.
Qed.

End RequestFacts.

(** ** The type-identity registry *)

Section RegistryFacts.

Local Open Scope Z_scope.
Local Open Scope list_scope.

Lemma nth_error_assign (es : list ZoneEntry) :
  forall (base : Z) (i : nat),
    nth_error (assign_local_ids base es) i
    = option_map (fun e => (e, base + Z.of_nat i)) (nth_error es i).
Proof.
  induction es as [|e es IH]; intros base i.
  - destruct i; reflexivity.
  - destruct i as [|i]; simpl.
    + rewrite Z.add_0_r. reflexivity.
    + rewrite IH.
      replace (base + 1 + Z.of_nat i) with (base + Z.pos (Pos.of_succ_nat i))
        by lia.
      reflexivity.
Qed.

Lemma assign_entries (es : list ZoneEntry) :
  forall base : Z, map fst (assign_local_ids base es) = es.
Proof.
  induction es as [|e es IH]; intros base; simpl; [|rewrite IH]; reflexivity.
Qed.

(** The ids of a zone are base, base + 1, ... in the order of declaration. *)
Lemma assign_ids_dense (es : list ZoneEntry) :
  forall base : Z,
    map snd (assign_local_ids base es)
    = map (fun i => base + Z.of_nat i) (seq 0 (List.length es)).
Proof.
  induction es as [|e es IH]; intros base; simpl; trivial.
  rewrite IH, <- seq_shift, map_map, Z.add_0_r. f_equal.
  apply map_ext. intros i. lia.
Qed.

Lemma assign_ids_unique (es : list ZoneEntry) (base : Z) :
  NoDup (map snd (assign_local_ids base es)).
Proof.
  rewrite assign_ids_dense.
  apply Injective_map_NoDup; [|apply seq_NoDup].
  intros i j Hij. lia.
Qed.

Lemma assign_app (es extra : list ZoneEntry) :
  forall base : Z,
    assign_local_ids base (es ++ extra)
    = assign_local_ids base es
      ++ assign_local_ids (base + Z.of_nat (List.length es)) extra.
Proof.
  induction es as [|e es IH]; intros base; simpl.
  - rewrite Z.add_0_r. reflexivity.
  - rewrite IH.
    replace (base + 1 + Z.of_nat (List.length es))
      with (base + Z.pos (Pos.of_succ_nat (List.length es))) by lia.
    reflexivity.
Qed.

(** A row found for a type is the first entry declaring that type, with the
    id of its position. *)
Lemma lookup_type_position (es : list ZoneEntry) :
  forall (base : Z) (ty : string) (e : ZoneEntry) (l : Z),
    lookup_type (assign_local_ids base es) ty = Some (e, l) ->
    exists i : nat,
      nth_error es i = Some e /\ entry_type e = ty /\ l = base + Z.of_nat i.
Proof.
  unfold lookup_type.
  induction es as [|e0 es IH]; intros base ty e l; simpl; [discriminate|].
  destruct (String.eqb (entry_type e0) ty) eqn:Hty.
  - intros Hfound. inversion Hfound; subst. exists 0%nat.
    apply String.eqb_eq in Hty. repeat split; trivial. lia.
  - intros Hfound. destruct (IH _ _ _ _ Hfound) as (i & Hi & He & Hl).
    exists (S i). repeat split; trivial. lia.
Qed.

(** In a zone that declares no type twice, every entry is found under its
    type, with the id of its position. *)
Lemma lookup_type_declared (es : list ZoneEntry) :
  forall (base : Z) (i : nat) (e : ZoneEntry),
    NoDup (map entry_type es) ->
    nth_error es i = Some e ->
    lookup_type (assign_local_ids base es) (entry_type e)
    = Some (e, base + Z.of_nat i).
Proof.
  unfold lookup_type.
  induction es as [|e0 es IH]; intros base i e Hnd Hi.
  - destruct i; discriminate.
  - inversion Hnd as [|ty0 tys Hfresh Hrest]; subst. simpl.
    destruct i as [|i]; simpl in Hi.
    + inversion Hi; subst. rewrite String.eqb_refl.
      rewrite Z.add_0_r. reflexivity.
    + destruct (String.eqb (entry_type e0) (entry_type e)) eqn:Hty.
      * apply String.eqb_eq in Hty. exfalso. apply Hfresh. rewrite Hty.
        apply in_map. apply (nth_error_In _ _ Hi).
      * rewrite (IH (base + 1) i e Hrest Hi).
        replace (base + 1 + Z.of_nat i)
          with (base + Z.pos (Pos.of_succ_nat i)) by lia.
        reflexivity.
Qed.

Lemma local_id_of_declared (es : list ZoneEntry) (base : Z) (i : nat)
  (e : ZoneEntry) :
  NoDup (map entry_type es) ->
  nth_error es i = Some e ->
  local_id_of base es (entry_type e) = Some (base + Z.of_nat i).
Proof.
  intros Hnd Hi. unfold local_id_of.
  rewrite (lookup_type_declared es base i e Hnd Hi). reflexivity.
Qed.

Lemma local_id_of_position (es : list ZoneEntry) (base : Z) (ty : string)
  (l : Z) :
  local_id_of base es ty = Some l ->
  exists (i : nat) (e : ZoneEntry),
    nth_error es i = Some e /\ entry_type e = ty /\ l = base + Z.of_nat i.
Proof.
  unfold local_id_of. intros Hl.
  destruct (lookup_type (assign_local_ids base es) ty) as [[e l']|] eqn:Hrow;
    [|discriminate].
  simpl in Hl. inversion Hl; subst.
  destruct (lookup_type_position es base ty e l Hrow) as (i & Hi & He & Hpos).
  exists i, e. auto.
Qed.

(** Two members of a list whose images under [f] do not repeat are the same
    member as soon as their images agree. *)
Lemma in_nodup_map_injective (A B : Type) (f : A -> B) (l : list A) (x y : A) :
  NoDup (map f l) -> In x l -> In y l -> f x = f y -> x = y.
Proof.
  induction l as [|a l IH]; simpl; intros Hnd Hx Hy Hf; [contradiction|].
  inversion Hnd as [|b bs Hfresh Hrest]; subst.
  destruct Hx as [Hx|Hx], Hy as [Hy|Hy].
  - congruence.
  - subst a. exfalso. apply Hfresh. rewrite Hf. apply in_map. exact Hy.
  - subst a. exfalso. apply Hfresh. rewrite <- Hf. apply in_map. exact Hx.
  - apply IH; assumption.
Qed.

Lemma lookup_type_app (rows extra : list (ZoneEntry * Z)) (ty : string) :
  In ty (map (fun row => entry_type (fst row)) rows) ->
  lookup_type (rows ++ extra) ty = lookup_type rows ty.
Proof.
  unfold lookup_type.
  induction rows as [|row rows IH]; simpl; intros Hin; [contradiction|].
  destruct (String.eqb (entry_type (fst row)) ty) eqn:Hty; trivial.
  destruct Hin as [Hhd|Htl].
  - rewrite Hhd, String.eqb_refl in Hty. discriminate.
  - apply IH. exact Htl.
Qed.

(** Entries appended at the end leave every id of the zone as it was. *)
Lemma local_id_of_append (es extra : list ZoneEntry) (base : Z) (ty : string) :
  In ty (map entry_type es) ->
  local_id_of base (es ++ extra) ty = local_id_of base es ty.
Proof.
  intros Hin. unfold local_id_of. rewrite assign_app, lookup_type_app; trivial.
  rewrite <- map_map, assign_entries. exact Hin.
Qed.

Lemma nth_error_insert_at_after (es : list ZoneEntry) (n i : nat)
  (x e : ZoneEntry) :
  (n <= i)%nat -> nth_error es i = Some e ->
  nth_error (insert_at n x es) (S i) = Some e.
Proof.
  intros Hle Hi. unfold insert_at.
  assert (Hlen : (i < List.length es)%nat)
    by (apply nth_error_Some; congruence).
  rewrite nth_error_app2; rewrite length_firstn, Nat.min_l by lia; [|lia].
  replace (S i - n)%nat with (S (i - n)) by lia. simpl.
  rewrite nth_error_skipn. replace (n + (i - n))%nat with i by lia. exact Hi.
Qed.


Lemma in_assign_position (es : list ZoneEntry) (base : Z) (e : ZoneEntry)
  (l : Z) :
  In (e, l) (assign_local_ids base es) <->
  exists i : nat, nth_error es i = Some e /\ l = base + Z.of_nat i.
Proof.
  split.
  - intros Hin. destruct (In_nth_error _ _ Hin) as [i Hi].
    rewrite nth_error_assign in Hi. exists i.
    destruct (nth_error es i) as [e0|]; simpl in Hi; [|discriminate].
    inversion Hi; subst. split; reflexivity.
  - intros (i & Hi & Hl). apply (nth_error_In _ i).
    rewrite nth_error_assign, Hi, Hl. reflexivity.
Qed.

(** A rearrangement of a zone that leaves every id as it was is no
    rearrangement at all. *)
Lemma ids_determine_order (es es' : list ZoneEntry) (base : Z) :
  Permutation es es' ->
  NoDup (map entry_type es) ->
  (forall ty : string, local_id_of base es' ty = local_id_of base es ty) ->
  es' = es.
Proof.
  intros Hperm Hnd Hsame.
  assert (Hnd' : NoDup (map entry_type es'))
    by (apply (Permutation_NoDup (Permutation_map entry_type Hperm) Hnd)).
  apply nth_error_ext. intros i.
  destruct (nth_error es i) as [e|] eqn:Hi.
  - pose proof (local_id_of_declared es base i e Hnd Hi) as Hid.
    rewrite <- Hsame in Hid.
    destruct (local_id_of_position es' base _ _ Hid) as (j & e' & Hj & Hty & Hpos).
    assert (j = i) by lia. subst j.
    rewrite Hj. f_equal.
    apply (in_nodup_map_injective ZoneEntry string entry_type es' e' e Hnd');
      trivial.
    + apply (nth_error_In _ _ Hj).
    + apply (Permutation_in e Hperm). apply (nth_error_In _ _ Hi).
  - apply nth_error_None. rewrite <- (Permutation_length Hperm).
    apply nth_error_None. exact Hi.
Qed.

(** C9: within a zone that declares no type twice, the local ids are the
    positions in the declaration list counted from the zone's base: the
    table lists the entries in declaration order with the ids base,
    base + 1, ...; no id is used twice; every declared entry has exactly one
    id, which is the one found for its type; entries appended at the end
    leave all those ids as they were; an entry inserted in front of another
    moves the id of every later entry by one; and no rearrangement other than
    the identity keeps all ids. *)
Theorem local_ids_by_position (base : Z) (es : list ZoneEntry) :
  NoDup (map entry_type es) ->
  (map fst (assign_local_ids base es) = es
   /\ map snd (assign_local_ids base es)
      = map (fun i => base + Z.of_nat i) (seq 0 (List.length es)))
  /\ NoDup (map snd (assign_local_ids base es))
  /\ (forall e : ZoneEntry, In e es ->
        exists! l : Z, In (e, l) (assign_local_ids base es))
  /\ (forall (e : ZoneEntry) (l : Z),
        In (e, l) (assign_local_ids base es) ->
        local_id_of base es (entry_type e) = Some l)
  /\ (forall (extra : list ZoneEntry) (e : ZoneEntry) (l : Z),
        In (e, l) (assign_local_ids base es) ->
        In (e, l) (assign_local_ids base (es ++ extra))
        /\ local_id_of base (es ++ extra) (entry_type e) = Some l)
  /\ (forall (n i : nat) (x e : ZoneEntry),
        (n <= i)%nat ->
        nth_error es i = Some e ->
        NoDup (map entry_type (insert_at n x es)) ->
        local_id_of base es (entry_type e) = Some (base + Z.of_nat i)
        /\ local_id_of base (insert_at n x es) (entry_type e)
           = Some (base + Z.of_nat i + 1))
  /\ (forall es' : list ZoneEntry,
        Permutation es es' -> es' <> es ->
        ~ (forall ty : string,
              local_id_of base es' ty = local_id_of base es ty)).
Proof.
  intros Hnd.
  assert (Hfound : forall e l, In (e, l) (assign_local_ids base es) ->
                     local_id_of base es (entry_type e) = Some l).
  { intros e l Hin. apply in_assign_position in Hin.
    destruct Hin as (i & Hi & Hl). subst l.
    apply local_id_of_declared; assumption. }
  split; [split; [apply assign_entries|apply assign_ids_dense]|].
  split; [apply assign_ids_unique|].
  split; [|split; [exact Hfound|split; [|split]]].
  - intros e Hin. destruct (In_nth_error _ _ Hin) as [i Hi].
    exists (base + Z.of_nat i). split.
    + apply in_assign_position. exists i. split; trivial.
    + intros l Hl. pose proof (Hfound _ _ Hl) as Hid.
      rewrite (local_id_of_declared es base i e Hnd Hi) in Hid.
      congruence.
  - intros extra e l Hin. split.
    + rewrite assign_app. apply in_or_app. left. exact Hin.
    + rewrite local_id_of_append; [apply Hfound; exact Hin|].
      apply in_map. apply in_assign_position in Hin.
      destruct Hin as (i & Hi & _). apply (nth_error_In _ _ Hi).
  - intros n i x e Hle Hi Hnd'. split.
    + apply local_id_of_declared; assumption.
    + pose proof (nth_error_insert_at_after es n i x e Hle Hi) as Hi'.
      rewrite (local_id_of_declared _ base (S i) e Hnd' Hi').
      f_equal. lia.
  - intros es' Hperm Hdiff Hsame. apply Hdiff.
    apply (ids_determine_order es es' base Hperm Hnd Hsame).
Qed.

(** An identity handed out by the registry names the zone that declares the
    type and the position of the type in that zone. *)
Lemma typeIdOf_found (registry : list Zone) (ty : string) (tid : TypeId) :
  typeIdOf registry ty = Some tid ->
  exists (z : Zone) (e : ZoneEntry) (i : nat),
    In z registry
    /\ nth_error (zone_entries z) i = Some e
    /\ entry_type e = ty
    /\ zoneID tid = zone_id z
    /\ localID tid = zone_base z + Z.of_nat i
    /\ getName tid = entry_name e.
Proof.
  induction registry as [|z registry IH]; simpl; [discriminate|].
  destruct (lookup_type (assign_local_ids (zone_base z) (zone_entries z)) ty)
    as [[e l]|] eqn:Hrow.
  - intros Hsome. inversion Hsome; subst. simpl.
    destruct (lookup_type_position _ _ _ _ _ Hrow) as (i & Hi & Hty & Hl).
    exists z, e, i. auto 10.
  - intros Hrest. destruct (IH Hrest) as (z' & e & i & Hin & Hfacts).
    exists z', e, i. auto.
Qed.

Lemma registry_identities_differ (registry : list Zone) (ty1 ty2 : string)
  (t1 t2 : TypeId) :
  NoDup (map zone_id registry) ->
  ty1 <> ty2 ->
  typeIdOf registry ty1 = Some t1 ->
  typeIdOf registry ty2 = Some t2 ->
  TypeId_value t1 <> TypeId_value t2.
Proof.
  intros Hzones Hty H1 H2 Hsame.
  destruct (typeIdOf_found _ _ _ H1)
    as (z1 & e1 & i1 & Hz1 & Hi1 & He1 & Hzone1 & Hlocal1 & _).
  destruct (typeIdOf_found _ _ _ H2)
    as (z2 & e2 & i2 & Hz2 & Hi2 & He2 & Hzone2 & Hlocal2 & _).
  unfold TypeId_value in Hsame. inversion Hsame as [[Hzone Hlocal]].
  assert (z1 = z2).
  { apply (in_nodup_map_injective Zone Z zone_id registry); trivial. congruence. }
  subst z2. assert (i1 = i2) by lia. subst i2.
  apply Hty. congruence.
Qed.

End RegistryFacts.

(** ** Kinds and their registry identity *)

Section KindIdentity.

Context `{Collaborators}.

(** C6: two kinds registered as two different types of a registry whose
    zones have distinct ids carry different (zone, local-id) identities; that
    identity is the first of the two values hash_value combines, so it
    differs even when the stored tuples are the same; and a request of the
    one kind is never the same request as a request of the other.
    (operator== itself relates two requests of one kind only.) *)
Theorem distinct_kinds_distinct_identity (registry : list Zone)
  (ty1 ty2 : string) (K1 K2 : Kind) :
  NoDup (map zone_id registry) ->
  ty1 <> ty2 ->
  typeIdOf registry ty1 = Some (typeId K1) ->
  typeIdOf registry ty2 = Some (typeId K2) ->
  identityOf registry ty1 <> identityOf registry ty2
  /\ TypeId_value (typeId K1) <> TypeId_value (typeId K2)
  /\ (forall (r1 : SimpleRequest K1) (r2 : SimpleRequest K2),
        hash_value r1
        = hash_combine (TypeId_value (typeId K1))
                       (hash_value_tuple (Inputs K1) (m_storage r1))
        /\ hash_value r2
           = hash_combine (TypeId_value (typeId K2))
                          (hash_value_tuple (Inputs K2) (m_storage r2))
        /\ existT SimpleRequest K1 r1 <> existT SimpleRequest K2 r2).
Proof.
  intros Hzones Hty H1 H2.
  pose proof (registry_identities_differ registry ty1 ty2 _ _
                Hzones Hty H1 H2) as Hdiff.
  split.
  { unfold identityOf. rewrite H1, H2. simpl. congruence. }
  split; [exact Hdiff|].
  intros r1 r2. split; [reflexivity|]. split; [reflexivity|].
  intros Hsame. apply Hdiff.
  apply (f_equal (fun p => TypeId_value (typeId (projT1 p)))) in Hsame.
  exact Hsame.
Qed.

End KindIdentity.

(** ** The statements at work on the concrete instance *)

Lemma all_distinct_NoDup (names : list string) :
  all_distinct names = true -> NoDup names.
Proof.
  induction names as [|x rest IH]; simpl; intros Hd; [constructor|].
  apply andb_true_iff in Hd. destruct Hd as [Hfresh Hrest].
  constructor; [|apply IH; exact Hrest].
  intros Hin. apply negb_true_iff in Hfresh.
  assert (Hex : existsb (String.eqb x) rest = true).
  { apply existsb_exists. exists x. split; [exact Hin|apply String.eqb_refl]. }
  congruence.
Qed.

(** The C++ zone declares no type twice. *)
Lemma CTypeIdZoneDefs_distinct : NoDup (map entry_type CTypeIdZoneDefs).
Proof.
  apply all_distinct_NoDup. reflexivity.
Qed.

(** C2, the claim as stated, fails: 1 and -1 are the same input of a kind
    that compares its input up to the sign, so the two requests compare
    equal; the input type hashes the sign too, and the two hashes differ. *)
Lemma equal_requests_with_different_hashes :
  operator_eq (DemoMore.magnitude_of 1) (DemoMore.magnitude_of (-1)) = true
  /\ hash_value (DemoMore.magnitude_of 1) = 79578%Z
  /\ hash_value (DemoMore.magnitude_of (-1)) = 79576%Z
  /\ hash_value (DemoMore.magnitude_of 1)
     <> hash_value (DemoMore.magnitude_of (-1)).
Proof.
  split; [reflexivity|]. split; [reflexivity|]. split; [reflexivity|].
  vm_compute. discriminate.
Qed.

(** Two residues that agree modulo 8 are equal requests and hash alike. *)
Lemma hash_value_pure_and_consistent_witness :
  operator_eq (Demo.residue_of 3 "a") (Demo.residue_of 11 "a") = true
  /\ hash_value (Demo.residue_of 3 "a") = hash_value (Demo.residue_of 11 "a").
Proof.
  split; [reflexivity|].
  apply (proj2 (hash_value_pure_and_consistent Demo.ResidueRequest)).
  - repeat constructor.
    + intros x y Hxy. simpl in Hxy. apply Z.eqb_eq in Hxy. exact Hxy.
    + intros x y Hxy. simpl in Hxy. apply String.eqb_eq in Hxy.
      simpl. congruence.
  - reflexivity.
Defined.

(** Squaring 3 succeeds with 9, squaring -1 fails, and both outcomes come
    back from evaluateRequest as evaluate produced them. *)
Lemma evaluateRequest_forwards_witness :
  exists f,
    evaluateRequest Demo.SquareRequest = WellFormed f
    /\ f (Demo.square_of 3 "x") 0%nat = (Success 9%Z, 1%nat)
    /\ f (Demo.square_of (-1) "x") 0%nat = (Failure "negative input", 1%nat).
Proof.
  destruct (evaluateRequest_forwards Demo.SquareRequest)
    as (f & Hf & _ & Hcall & _).
  - discriminate.
  - exists f. split; [exact Hf|]. rewrite !Hcall. split; reflexivity.
Defined.

Lemma evaluateRequest_needs_an_input_witness :
  evaluateRequest Demo.NoInputRequest
  = IllFormed "Subclass must define evaluate()"
  /\ 1 <= List.length (Inputs Demo.SquareRequest).
Proof.
  split.
  - apply (proj1 (evaluateRequest_needs_an_input Demo.NoInputRequest)).
    reflexivity.
  - eapply (proj2 (evaluateRequest_needs_an_input Demo.SquareRequest)).
    reflexivity.
Defined.

(** C4, the claim as stated, fails on both sides: a kind that declares both
    variants and a kind that has neither variant (it declares diagnoseCycle
    itself and leaves noteCycleStep to the templates) do not have exactly
    one of them, and yet the hooks of either are instantiated without
    error. *)
Lemma both_or_neither_variant_is_accepted :
  (has_direct_variant Demo.BothRequest = true
   /\ has_templated_variant Demo.BothRequest = true
   /\ exactly_one_variant Demo.BothRequest = false
   /\ cycle_hooks_build Demo.BothRequest = true)
  /\ (has_direct_variant DemoMore.MixedRequest = false
      /\ has_templated_variant DemoMore.MixedRequest = false
      /\ exactly_one_variant DemoMore.MixedRequest = false
      /\ cycle_hooks_build DemoMore.MixedRequest = true).
Proof.
  repeat split; reflexivity.
Qed.

(** A kind without any of the members is rejected, and so is a kind that
    has the templates for noteCycleStep only; the kinds with one or with both
    variants and the kind that mixes them build. *)
Lemma cycle_hooks_build_exactly_when_witness :
  cycle_hooks_build Demo.BareRequest = false
  /\ is_well_formed (Derived_diagnoseCycle Demo.BareRequest) = false
  /\ is_well_formed (Derived_noteCycleStep Demo.BareRequest) = false
  /\ cycle_hooks_build Demo.SquareRequest = true
  /\ cycle_hooks_build Demo.BothRequest = true
  /\ cycle_hooks_build DemoMore.MixedRequest = true.
Proof.
  destruct (cycle_hooks_build_exactly_when Demo.BareRequest)
    as (_ & _ & Hnone & Hhead & Hstep & _).
  split; [apply Hnone; reflexivity|].
  split; [apply Hhead; reflexivity|].
  split; [apply Hstep; reflexivity|].
  split; [|split].
  - destruct (cycle_hooks_build_exactly_when Demo.SquareRequest)
      as (_ & Hone & _).
    apply Hone. reflexivity.
  - destruct (cycle_hooks_build_exactly_when Demo.BothRequest)
      as (_ & Hone & _).
    apply Hone. reflexivity.
  - destruct (cycle_hooks_build_exactly_when DemoMore.MixedRequest)
      as (Hexact & _).
    rewrite Hexact. reflexivity.
Defined.

Lemma templated_hooks_emit_one_diagnostic_witness :
  exists fc fs,
    Derived_diagnoseCycle Demo.SquareRequest = WellFormed fc
    /\ Derived_noteCycleStep Demo.SquareRequest = WellFormed fs
    /\ fc (Demo.square_of 3 "x") []
       = [@Emitted Demo.collaborators Demo.SquareInputs 3%Z {| diagID := 1 |}
                  ((3%Z, ("x", tt)) : tuple Demo.SquareInputs)]
    /\ fs (Demo.square_of 3 "x") []
       = [@Emitted Demo.collaborators Demo.SquareInputs 3%Z {| diagID := 2 |}
                  ((3%Z, ("x", tt)) : tuple Demo.SquareInputs)].
Proof.
  destruct (templated_hooks_emit_one_diagnostic Demo.SquareRequest
              (fun (n : Z) (_ : string) => n)
              {| diagID := 1 |} {| diagID := 2 |}
              eq_refl eq_refl eq_refl eq_refl eq_refl)
    as (fc & fs & Hc & Hs & Hemit).
  exists fc, fs. split; [exact Hc|]. split; [exact Hs|].
  destruct (Hemit (Demo.square_of 3 "x") []) as [Hhead Hstep].
  rewrite Hhead, Hstep. split; reflexivity.
Defined.


(** A request constructed from (3, "x") over an object that held (0, ""),
    then every public operation once: the request still stores (3, "x"). *)
Lemma storage_fixed_at_construction_witness :
  exists rs e',
    Methods.construct_then ((3%Z, ("x", tt)) : tuple (Inputs Demo.SquareRequest))
                           Demo.all_operations (Demo.start_env 0 "")
    = WellFormed (rs, e')
    /\ List.length rs = 9%nat
    /\ m_storage (env_this e') = ((3%Z, ("x", tt)) : tuple Demo.SquareInputs).
Proof.
  destruct (Methods.construct_then
              ((3%Z, ("x", tt)) : tuple (Inputs Demo.SquareRequest))
              Demo.all_operations (Demo.start_env 0 ""))
    as [[rs e']|why] eqn:Hrun; [|discriminate Hrun].
  exists rs, e'. split; [reflexivity|]. split.
  - vm_compute in Hrun. inversion Hrun. reflexivity.
  - destruct (storage_fixed_at_construction Demo.SquareRequest
                ((3%Z, ("x", tt)) : tuple Demo.SquareInputs))
      as (_ & _ & _ & Hlife).
    apply (Hlife Demo.all_operations (Demo.start_env 0 "") e' rs Hrun).
Defined.

(** A method that wrote the stored tuple would not pass: writing (4, "y")
    over the request (3, "x") leaves another request behind. *)
Lemma writing_the_storage_changes_the_request :
  ~ Methods.keeps_request
      (Methods.write_storage Demo.SquareRequest
         ((4%Z, ("y", tt)) : tuple (Inputs Demo.SquareRequest))).
Proof.
  intros Hkeeps.
  specialize (Hkeeps (Demo.start_env 3 "x") _ tt eq_refl).
  discriminate Hkeeps.
Qed.

(** In the C++ zone, int is the sixth entry: id 5 from base 0; appending
    wchar_t keeps it, inserting wchar_t at position 2 makes it 6. *)
Lemma local_ids_by_position_witness :
  local_id_of 0 CTypeIdZoneDefs "int" = Some 5%Z
  /\ local_id_of 0 (CTypeIdZoneDefs ++ [Demo.WideChar]) "int" = Some 5%Z
  /\ local_id_of 0 (insert_at 2 Demo.WideChar CTypeIdZoneDefs) "int"
     = Some 6%Z
  /\ NoDup (map snd (assign_local_ids 0 CTypeIdZoneDefs)).
Proof.
  destruct (local_ids_by_position 0 CTypeIdZoneDefs CTypeIdZoneDefs_distinct)
    as (_ & Huniq & _ & Hfound & Happend & Hinsert & _).
  assert (Hint : In (POLAR_TYPEID_NAMED "int" "Int", 5%Z)
                    (assign_local_ids 0 CTypeIdZoneDefs))
    by (simpl; tauto).
  split; [exact (Hfound _ _ Hint)|].
  split; [exact (proj2 (Happend [Demo.WideChar] _ _ Hint))|].
  split; [|exact Huniq].
  destruct (Hinsert 2%nat 5%nat Demo.WideChar (POLAR_TYPEID_NAMED "int" "Int"))
    as [_ Hmoved].
  - lia.
  - reflexivity.
  - apply all_distinct_NoDup. reflexivity.
  - exact Hmoved.
Defined.

Lemma distinct_kinds_distinct_identity_witness :
  TypeId_value (typeId Demo.SquareRequest)
    <> TypeId_value (typeId Demo.CubeRequest)
  /\ existT SimpleRequest Demo.SquareRequest (Demo.square_of 3 "x")
     <> existT SimpleRequest Demo.CubeRequest
               (Build_SimpleRequest Demo.CubeRequest
                  ((3%Z, ("x", tt)) : tuple Demo.SquareInputs)).
Proof.
  destruct (distinct_kinds_distinct_identity Demo.registry
              "SquareRequest" "CubeRequest"
              Demo.SquareRequest Demo.CubeRequest)
    as (_ & Hid & Hrequests).
  - apply NoDup_cons; [simpl; intros [E|[]]; discriminate E|].
    apply NoDup_cons; [simpl; tauto|apply NoDup_nil].
  - discriminate.
  - reflexivity.
  - reflexivity.
  - split; [exact Hid|].
    apply (Hrequests (Demo.square_of 3 "x")
             (Build_SimpleRequest Demo.CubeRequest
                ((3%Z, ("x", tt)) : tuple Demo.SquareInputs))).
Defined.

(** * Further properties of the request base class *)

Section TupleEquality.

Lemma tuple_eqb_at_index (ts : list InputType) (t : InputType)
  (i : index ts t) :
  forall a b : tuple ts,
    tuple_eqb a b = true -> elem_eqb t (get i a) (get i b) = true.
Proof.
  induction i as [t ts|t u ts j IH]; simpl; intros a b Heq;
    apply andb_true_iff in Heq; destruct Heq as [Hhd Htl].
  - exact Hhd.
  - apply IH. exact Htl.
Qed.

(** Two tuples compare unequal exactly when they differ at some index. *)
Lemma tuple_eqb_false_at_index (ts : list InputType) (a b : tuple ts) :
  tuple_eqb a b = false <->
  exists (t : InputType) (i : index ts t),
    elem_eqb t (get i a) (get i b) = false.
Proof.
  split.
  - induction ts as [|t ts IH]; intros Hne; [discriminate Hne|].
    destruct a as [x a], b as [y b]. simpl in Hne.
    destruct (elem_eqb t x y) eqn:Hhd.
    + simpl in Hne. destruct (IH a b Hne) as (t' & j & Hj).
      exists t', (IS t j). exact Hj.
    + exists t, (IZ t ts). exact Hhd.
  - intros (t & i & Hi).
    destruct (tuple_eqb a b) eqn:Heq; trivial.
    rewrite (tuple_eqb_at_index ts t i a b Heq) in Hi. discriminate Hi.
Qed.

Lemma tuple_eqb_refl (ts : list InputType) (a : tuple ts) :
  Forall eqb_reflexive ts -> tuple_eqb a a = true.
Proof.
  induction ts as [|t ts IH]; simpl; intros Hall; trivial.
  inversion Hall as [|t' ts' Ht Hts]; subst.
  rewrite (Ht (fst a)), (IH (snd a) Hts). reflexivity.
Qed.

Lemma tuple_eqb_sym (ts : list InputType) (a b : tuple ts) :
  Forall eqb_symmetric ts -> tuple_eqb a b = tuple_eqb b a.
Proof.
  induction ts as [|t ts IH]; simpl; intros Hall; trivial.
  inversion Hall as [|t' ts' Ht Hts]; subst.
  rewrite (Ht (fst a) (fst b)), (IH (snd a) (snd b) Hts). reflexivity.
Qed.

Lemma tuple_eqb_trans (ts : list InputType) (a b c : tuple ts) :
  Forall eqb_transitive ts ->
  tuple_eqb a b = true -> tuple_eqb b c = true -> tuple_eqb a c = true.
Proof.
  induction ts as [|t ts IH]; simpl; intros Hall Hab Hbc; trivial.
  inversion Hall as [|t' ts' Ht Hts]; subst.
  apply andb_true_iff in Hab. destruct Hab as [Hab1 Hab2].
  apply andb_true_iff in Hbc. destruct Hbc as [Hbc1 Hbc2].
  apply andb_true_iff. split.
  - apply (Ht _ _ _ Hab1 Hbc1).
  - apply (IH _ _ _ Hts Hab2 Hbc2).
Qed.

Lemma tuple_eqb_identity (ts : list InputType) (a b : tuple ts) :
  Forall eqb_decides_identity ts -> (tuple_eqb a b = true <-> a = b).
Proof.
  induction ts as [|t ts IH]; simpl; intros Hall.
  - destruct a, b. split; reflexivity.
  - inversion Hall as [|t' ts' Ht Hts]; subst.
    destruct a as [x a], b as [y b]. simpl.
    rewrite andb_true_iff, (Ht x y), (IH a b Hts).
    split.
    + intros [Hx Ha]. congruence.
    + intros Hpair. inversion Hpair. split; reflexivity.
Qed.

End TupleEquality.

Section RequestEquality.

Context `{Collaborators}.

(** X1: operator!= is the negation of operator==, and it holds exactly when
    the two stored tuples differ at some index, i.e. when for some index the
    two stored elements compare unequal. *)
Theorem operator_ne_iff_some_index_differs (K : Kind)
  (lhs rhs : SimpleRequest K) :
  operator_ne lhs rhs = negb (operator_eq lhs rhs)
  /\ (operator_ne lhs rhs = true <->
      exists (t : InputType) (i : index (Inputs K) t),
        elem_eqb t (get i (m_storage lhs)) (get i (m_storage rhs)) = false).
Proof.
  split; [reflexivity|].
  unfold operator_ne, operator_eq. rewrite negb_true_iff.
  apply tuple_eqb_false_at_index.
Qed.

(** X2: operator== is an equivalence on the requests of a kind as far as the
    operator== of the input types is one: it is reflexive when theirs are
    reflexive, symmetric when theirs are symmetric and transitive when
    theirs are transitive. *)
Theorem operator_eq_equivalence (K : Kind) :
  (Forall eqb_reflexive (Inputs K) ->
   forall r : SimpleRequest K, operator_eq r r = true)
  /\ (Forall eqb_symmetric (Inputs K) ->
      forall r1 r2 : SimpleRequest K, operator_eq r1 r2 = operator_eq r2 r1)
  /\ (Forall eqb_transitive (Inputs K) ->
      forall r1 r2 r3 : SimpleRequest K,
        operator_eq r1 r2 = true -> operator_eq r2 r3 = true ->
        operator_eq r1 r3 = true).
Proof.
  unfold operator_eq. split; [|split].
  - intros Hall r. apply tuple_eqb_refl. exact Hall.
  - intros Hall r1 r2. apply tuple_eqb_sym. exact Hall.
  - intros Hall r1 r2 r3. apply tuple_eqb_trans. exact Hall.
Qed.

Lemma request_identity (K : Kind) (lhs rhs : SimpleRequest K) :
  Forall eqb_decides_identity (Inputs K) ->
  (operator_eq lhs rhs = true <-> lhs = rhs).
Proof.
  intros Hall. unfold operator_eq.
  rewrite (tuple_eqb_identity (Inputs K) _ _ Hall).
  destruct lhs as [a], rhs as [b]. simpl. split.
  - intros Hab. rewrite Hab. reflexivity.
  - intros Hreq. inversion Hreq. reflexivity.
Qed.

(** X3: when the operator== of every input type holds for identical values
    and no others, operator== holds for identical requests and no others and
    operator!= for different ones; two requests that compare equal are then
    evaluated, hashed, displayed and traced alike. *)
Theorem operator_eq_decides_identity (K : Kind) :
  Forall eqb_decides_identity (Inputs K) ->
  forall lhs rhs : SimpleRequest K,
    (operator_eq lhs rhs = true <-> lhs = rhs)
    /\ (operator_ne lhs rhs = true <-> lhs <> rhs)
    /\ (operator_eq lhs rhs = true ->
        (forall f evaluator,
            evaluateRequest K = WellFormed f ->
            f lhs evaluator = f rhs evaluator)
        /\ hash_value lhs = hash_value rhs
        /\ (forall out, simple_display out lhs = simple_display out rhs)
        /\ (forall reporter,
              make_tracer reporter lhs = make_tracer reporter rhs)).
Proof.
  intros Hall lhs rhs.
  pose proof (request_identity K lhs rhs Hall) as Hid.
  split; [exact Hid|]. split.
  - unfold operator_ne. rewrite negb_true_iff. split.
    + intros Hne Hsame. apply Hid in Hsame. congruence.
    + intros Hdiff. destruct (operator_eq lhs rhs) eqn:Heq; trivial.
      exfalso. apply Hdiff. apply Hid. reflexivity.
  - intros Heq. apply Hid in Heq. subst rhs. repeat split.
Qed.

End RequestEquality.

Section RequestCalls.

Context `{Collaborators}.


Lemma fold_left_pointwise (A B : Type) (f g : A -> B -> A) :
  (forall a b, f a b = g a b) ->
  forall (l : list B) (a : A), fold_left f l a = fold_left g l a.
Proof.
  intros Hfg l. induction l as [|b l IH]; intros a; simpl; trivial.
  rewrite Hfg. apply IH.
Qed.

Lemma fold_left_append_one (A B : Type) (g : B -> A) (rest : list B) :
  forall start : list A,
    fold_left (fun acc r => acc ++ [g r])%list rest start
    = (start ++ map g rest)%list.
Proof.
  induction rest as [|r rest IH]; intros start; simpl.
  - rewrite app_nil_r. reflexivity.
  - rewrite IH, <- app_assoc. reflexivity.
Qed.

(** X7: for a kind with the templated cycle diagnostics, diagnoseCycle on
    one request followed by noteCycleStep on each request of a list adds
    one head diagnostic and then one step diagnostic per listed request, in
    the order of the calls, behind the diagnostics that were there before. *)
Theorem cycle_report_head_then_steps (K : Kind)
  (loc : arrow (Inputs K) SourceLoc) (head step : Diag (Inputs K)) :
  own_diagnoseCycle K = None ->
  own_noteCycleStep K = None ->
  getCycleDiagnosticLoc K = Some loc ->
  cycleDiagnostic K = Some head ->
  cycleStepDiagnostic K = Some step ->
  exists fc fs,
    Derived_diagnoseCycle K = WellFormed fc
    /\ Derived_noteCycleStep K = WellFormed fs
    /\ forall (first : SimpleRequest K) (rest : list (SimpleRequest K))
              (diags : DiagnosticEngine),
         fold_left (fun acc r => fs r acc) rest (fc first diags)
         = (diags ++ templated_diagnostic K loc head first
                  :: map (templated_diagnostic K loc step) rest)%list.
Proof.
  intros Hdc Hns Hloc Hhead Hstep.
  unfold Derived_diagnoseCycle, Derived_noteCycleStep, diagnoseCycle,
    noteCycleStep, diagnoseImpl.
  rewrite Hdc, Hns, Hloc, Hhead, Hstep.
  do 2 eexists. split; [reflexivity|]. split; [reflexivity|].
  intros first rest diags. cbv beta.
  rewrite (fold_left_pointwise _ _ _
             (fun acc r => (acc ++ [templated_diagnostic K loc step r])%list)).
  - rewrite fold_left_append_one. unfold diagnose, templated_diagnostic.
    rewrite expand_call_index_sequence_for, expand_pack_index_sequence_for.
    rewrite <- app_assoc. reflexivity.
  - intros acc r. unfold diagnose, templated_diagnostic.
    rewrite expand_call_index_sequence_for, expand_pack_index_sequence_for.
    reflexivity.
Qed.

(** X8: the two hooks are resolved one by one.  A kind may declare
    diagnoseCycle itself and leave noteCycleStep to the templates, or the
    other way round: its hooks build, the declared hook is the kind's own,
    and the other one adds the one templated diagnostic; the template of the
    hook the kind declares itself is not needed. *)
Theorem hooks_are_resolved_one_by_one (K : Kind) :
  (forall own loc step,
      own_diagnoseCycle K = Some own ->
      own_noteCycleStep K = None ->
      getCycleDiagnosticLoc K = Some loc ->
      cycleStepDiagnostic K = Some step ->
      cycle_hooks_build K = true
      /\ exists fc fs,
           Derived_diagnoseCycle K = WellFormed fc
           /\ Derived_noteCycleStep K = WellFormed fs
           /\ forall (this : SimpleRequest K) (diags : DiagnosticEngine),
                fc this diags = own (m_storage this) diags
                /\ fs this diags
                   = (diags ++ [templated_diagnostic K loc step this])%list)
  /\ (forall own loc head,
        own_diagnoseCycle K = None ->
        own_noteCycleStep K = Some own ->
        getCycleDiagnosticLoc K = Some loc ->
        cycleDiagnostic K = Some head ->
        cycle_hooks_build K = true
        /\ exists fc fs,
             Derived_diagnoseCycle K = WellFormed fc
             /\ Derived_noteCycleStep K = WellFormed fs
             /\ forall (this : SimpleRequest K) (diags : DiagnosticEngine),
                  fc this diags
                  = (diags ++ [templated_diagnostic K loc head this])%list
                  /\ fs this diags = own (m_storage this) diags).
Proof.
  split.
  - intros own loc step Hdc Hns Hloc Hstep.
    unfold cycle_hooks_build, Derived_diagnoseCycle, Derived_noteCycleStep,
      noteCycleStep, diagnoseImpl.
    rewrite Hdc, Hns, Hloc, Hstep.
    split; [reflexivity|].
    do 2 eexists. split; [reflexivity|]. split; [reflexivity|].
    intros this diags. cbv beta. unfold diagnose, templated_diagnostic, getStorage.
    rewrite expand_call_index_sequence_for, expand_pack_index_sequence_for.
    split; reflexivity.
  - intros own loc head Hdc Hns Hloc Hhead.
    unfold cycle_hooks_build, Derived_diagnoseCycle, Derived_noteCycleStep,
      diagnoseCycle, diagnoseImpl.
    rewrite Hdc, Hns, Hloc, Hhead.
    split; [reflexivity|].
    do 2 eexists. split; [reflexivity|]. split; [reflexivity|].
    intros this diags. cbv beta. unfold diagnose, templated_diagnostic, getStorage.
    rewrite expand_call_index_sequence_for, expand_pack_index_sequence_for.
    split; reflexivity.
Qed.

End RequestCalls.

(** ** The further properties at work on the concrete instance *)

Lemma residue_inputs_reflexive :
  Forall eqb_reflexive (Inputs Demo.ResidueRequest).
Proof.
  apply Forall_cons; [|apply Forall_cons; [|apply Forall_nil]].
  - intros x. apply Z.eqb_refl.
  - intros x. apply String.eqb_refl.
Qed.

Lemma residue_inputs_symmetric :
  Forall eqb_symmetric (Inputs Demo.ResidueRequest).
Proof.
  apply Forall_cons; [|apply Forall_cons; [|apply Forall_nil]].
  - intros x y. apply Z.eqb_sym.
  - intros x y. apply String.eqb_sym.
Qed.

Lemma residue_inputs_transitive :
  Forall eqb_transitive (Inputs Demo.ResidueRequest).
Proof.
  apply Forall_cons; [|apply Forall_cons; [|apply Forall_nil]].
  - intros x y z Hxy Hyz. simpl in *.
    apply Z.eqb_eq in Hxy. apply Z.eqb_eq in Hyz. apply Z.eqb_eq. congruence.
  - intros x y z Hxy Hyz. simpl in *.
    apply String.eqb_eq in Hxy. apply String.eqb_eq in Hyz.
    apply String.eqb_eq. congruence.
Qed.

Lemma square_inputs_decide_identity :
  Forall eqb_decides_identity (Inputs Demo.SquareRequest).
Proof.
  apply Forall_cons; [|apply Forall_cons; [|apply Forall_nil]].
  - intros x y. apply Z.eqb_eq.
  - intros x y. apply String.eqb_eq.
Qed.

(** 3, 11 and 19 are the same residue: the requests on them compare equal
    in either direction and across the middle one. *)
Lemma operator_eq_equivalence_witness :
  operator_eq (Demo.residue_of 3 "a") (Demo.residue_of 3 "a") = true
  /\ operator_eq (Demo.residue_of 11 "a") (Demo.residue_of 3 "a")
     = operator_eq (Demo.residue_of 3 "a") (Demo.residue_of 11 "a")
  /\ operator_eq (Demo.residue_of 3 "a") (Demo.residue_of 19 "a") = true.
Proof.
  destruct (operator_eq_equivalence Demo.ResidueRequest)
    as (Hrefl & Hsym & Htrans).
  split; [apply (Hrefl residue_inputs_reflexive)|].
  split; [apply (Hsym residue_inputs_symmetric)|].
  apply (Htrans residue_inputs_transitive _ (Demo.residue_of 11 "a"));
    reflexivity.
Defined.

Lemma operator_eq_decides_identity_witness :
  operator_ne (Demo.square_of 3 "x") (Demo.square_of 4 "x") = true
  /\ Demo.square_of 3 "x" <> Demo.square_of 4 "x"
  /\ hash_value (Demo.square_of 3 "x") = hash_value (Demo.square_of (1 + 2) "x").
Proof.
  split; [reflexivity|]. split.
  - apply (operator_eq_decides_identity Demo.SquareRequest
             square_inputs_decide_identity).
    reflexivity.
  - apply (operator_eq_decides_identity Demo.SquareRequest
             square_inputs_decide_identity
             (Demo.square_of 3 "x") (Demo.square_of (1 + 2) "x")).
    reflexivity.
Defined.


Lemma cycle_report_head_then_steps_witness :
  exists fc fs,
    Derived_diagnoseCycle Demo.SquareRequest = WellFormed fc
    /\ Derived_noteCycleStep Demo.SquareRequest = WellFormed fs
    /\ fold_left (fun acc r => fs r acc)
                 [Demo.square_of 2 "b"; Demo.square_of 3 "c"]
                 (fc (Demo.square_of 1 "a") [])
       = [@Emitted Demo.collaborators Demo.SquareInputs 1%Z {| diagID := 1 |}
                   ((1%Z, ("a", tt)) : tuple Demo.SquareInputs);
          @Emitted Demo.collaborators Demo.SquareInputs 2%Z {| diagID := 2 |}
                   ((2%Z, ("b", tt)) : tuple Demo.SquareInputs);
          @Emitted Demo.collaborators Demo.SquareInputs 3%Z {| diagID := 2 |}
                   ((3%Z, ("c", tt)) : tuple Demo.SquareInputs)].
Proof.
  destruct (cycle_report_head_then_steps Demo.SquareRequest
              (fun (n : Z) (_ : string) => n)
              {| diagID := 1 |} {| diagID := 2 |}
              eq_refl eq_refl eq_refl eq_refl eq_refl)
    as (fc & fs & Hc & Hs & Hreport).
  exists fc, fs. split; [exact Hc|]. split; [exact Hs|].
  rewrite Hreport. reflexivity.
Defined.

Lemma hooks_are_resolved_one_by_one_witness :
  cycle_hooks_build DemoMore.MixedRequest = true
  /\ has_direct_variant DemoMore.MixedRequest = false
  /\ has_templated_variant DemoMore.MixedRequest = false
  /\ exists fc fs,
       Derived_diagnoseCycle DemoMore.MixedRequest = WellFormed fc
       /\ Derived_noteCycleStep DemoMore.MixedRequest = WellFormed fs
       /\ fc (DemoMore.mixed_of 3 "x") []
          = [@Emitted Demo.collaborators Demo.SquareInputs 0%Z
                      {| diagID := 9 |}
                      ((3%Z, ("x", tt)) : tuple Demo.SquareInputs)]
       /\ fs (DemoMore.mixed_of 3 "x") []
          = [@Emitted Demo.collaborators Demo.SquareInputs 3%Z
                      {| diagID := 2 |}
                      ((3%Z, ("x", tt)) : tuple Demo.SquareInputs)].
Proof.
  destruct (proj1 (hooks_are_resolved_one_by_one DemoMore.MixedRequest)
              _ (fun (n : Z) (_ : string) => n) {| diagID := 2 |}
              eq_refl eq_refl eq_refl eq_refl)
    as (Hbuild & fc & fs & Hc & Hs & Hcalls).
  split; [exact Hbuild|]. split; [reflexivity|]. split; [reflexivity|].
  exists fc, fs. split; [exact Hc|]. split; [exact Hs|].
  destruct (Hcalls (DemoMore.mixed_of 3 "x") []) as [Hown Hstep].
  rewrite Hown, Hstep. split; reflexivity.
Defined.
